(** * CloudSentinel: the zero-trust access gates and the audit log

    A shallow embedding of [backend/access_control.py] (class
    [AccessControl]) and of the parts of [backend/database.py] (class
    [Database]) it rests on: the file-metadata store and the audit log.

    Python dictionaries that the code uses as structures become records;
    the two JSON files [files.json] and [audit_log.json] become a finite
    map and a list inside an explicit [World]; [datetime.now()] and
    [requests.get] become reads of that world.  Strings are byte strings,
    so a digit is one of the ten ASCII digits. *)

From Stdlib Require Import ZArith Ascii String List Lia.
From stdpp Require Import base option list strings gmap.

Local Open Scope string_scope.
Local Open Scope Z_scope.

(** ** Python helpers *)

Module Py.

(** [sep.join(l)]. *)
Definition join (sep : string) (l : list string) : string :=
  String.concat sep l.

(** [s.startswith(p)]. *)
Definition startswith (s p : string) : bool := String.prefix p s.

(** [x in l] for a list. *)
Definition contains (x : string) (l : list string) : bool :=
  bool_decide (x ∈ l).

(** Truthiness of an optional string argument: [None] and [''] are falsy. *)
Definition truthy (o : option string) : bool :=
  match o with
  | None => false
  | Some s => negb (String.eqb s "")
  end.

(** [l[start:]]: a negative [start] counts from the end of the list and
    is clamped at its beginning; a non-negative one counts from the
    beginning, so that [l[-0:]] is all of [l]. *)
Definition slice_from {A} (start : Z) (l : list A) : list A :=
  if start <? 0
  then drop (Z.to_nat (Z.max (Z.of_nat (length l) + start) 0)) l
  else drop (Z.to_nat start) l.

(** [l[::-1]]. *)
Definition reversed {A} (l : list A) : list A := reverse l.

(** One decimal digit. *)
Definition digit (z : Z) : ascii := ascii_of_nat (48 + Z.to_nat (z mod 10)).

(** The [width] low decimal digits of [z], as printed by [%0<width>d]
    for [0 <= z < 10^width]. *)
Fixpoint zfill (width : nat) (z : Z) : string :=
  match width with
  | O => ""
  | S n => zfill n (z / 10) +:+ String (digit z) ""
  end.

End Py.

(** ** Times of day: [datetime.time] *)

Record time := mk_time {
  hour : Z;
  minute : Z;
  second : Z;
  microsecond : Z
}.

Record datetime := mk_datetime {
  year : Z;
  month : Z;
  day : Z;
  time_of : time          (* [.time()] *)
}.

Definition valid_time (t : time) : Prop :=
  0 <= hour t < 24 /\ 0 <= minute t < 60 /\ 0 <= second t < 60 /\
  0 <= microsecond t < 1000000.

(** [a <= b] on [datetime.time]: the tuples (hour, minute, second,
    microsecond) compared lexicographically. *)
Definition time_le (a b : time) : bool :=
  if hour a <? hour b then true
  else if hour b <? hour a then false
  else if minute a <? minute b then true
  else if minute b <? minute a then false
  else if second a <? second b then true
  else if second b <? second a then false
  else microsecond a <=? microsecond b.

(** Microseconds since midnight. *)
Definition micros (t : time) : Z :=
  ((hour t * 60 + minute t) * 60 + second t) * 1000000 + microsecond t.

(** [t.strftime('%H:%M:%S')]. *)
Definition strftime_HMS (t : time) : string :=
  Py.zfill 2 (hour t) +:+ ":" +:+ Py.zfill 2 (minute t) +:+ ":" +:+
  Py.zfill 2 (second t).

(** [d.isoformat()]. *)
Definition isoformat (d : datetime) : string :=
  Py.zfill 4 (year d) +:+ "-" +:+ Py.zfill 2 (month d) +:+ "-" +:+
  Py.zfill 2 (day d) +:+ "T" +:+ strftime_HMS (time_of d) +:+
  (if microsecond (time_of d) =? 0 then ""
   else "." +:+ Py.zfill 6 (microsecond (time_of d))).

(** ** [datetime.strptime(s, '%H:%M')]

    The library turns the format into the regular expression
    [(2[0-3]|[0-1]\d|\d):([0-5]\d|\d)], matches it at the start of the
    string and then refuses left-over characters.  A failure is a
    [ValueError], whose text is the left summand. *)

Module Strptime.

Definition is_digit (c : ascii) : bool :=
  let n := nat_of_ascii c in (48 <=? n)%nat && (n <=? 57)%nat.

Definition digit_val (c : ascii) : Z := Z.of_nat (nat_of_ascii c) - 48.

(** The matches of the hour group, in the order the alternatives are
    tried: [2[0-3]], [[0-1]\d], [\d]. *)
Definition match_H (s : string) : list (Z * string) :=
  match s with
  | String a (String b r) =>
      (if Ascii.eqb a "2" && is_digit b && (digit_val b <=? 3)
       then [(20 + digit_val b, r)] else []) ++
      (if is_digit a && (digit_val a <=? 1) && is_digit b
       then [(10 * digit_val a + digit_val b, r)] else []) ++
      (if is_digit a then [(digit_val a, String b r)] else [])
  | String a r => if is_digit a then [(digit_val a, r)] else []
  | EmptyString => []
  end.

(** The first match of the minute group: [[0-5]\d], then [\d]. *)
Definition match_M (s : string) : option (Z * string) :=
  match s with
  | String a (String b r) =>
      if is_digit a && (digit_val a <=? 5) && is_digit b
      then Some (10 * digit_val a + digit_val b, r)
      else if is_digit a then Some (digit_val a, String b r) else None
  | String a r => if is_digit a then Some (digit_val a, r) else None
  | EmptyString => None
  end.

(** The rest of the expression after an hour match: a colon, then the
    minute group. *)
Definition after_H (hr : Z * string) : option (Z * Z * string) :=
  match hr.2 with
  | String c r =>
      if Ascii.eqb c ":"
      then match match_M r with
           | Some (m, r') => Some (hr.1, m, r')
           | None => None
           end
      else None
  | EmptyString => None
  end.

(** Backtracking over the hour alternatives. *)
Fixpoint first_match (alts : list (Z * string)) : option (Z * Z * string) :=
  match alts with
  | [] => None
  | hr :: alts' =>
      match after_H hr with
      | Some r => Some r
      | None => first_match alts'
      end
  end.

Definition strptime_HM (s : string) : string + time :=
  match first_match (match_H s) with
  | None =>
      inl ("time data '" +:+ s +:+ "' does not match format '%H:%M'")
  | Some (h, m, rest) =>
      match rest with
      | EmptyString => inr (mk_time h m 0 0)
      | _ => inl ("unconverted data remains: " +:+ rest)
      end
  end.

End Strptime.

(** ** Data model *)

(** One entry of [files.json], as [save_file_metadata] writes it. *)
Module Meta.
Record t := mk {
  owner : string;
  original_filename : string;
  uploaded_at : string;
  allowed_users : list string;
  access_start_time : string;
  access_end_time : string;
  allowed_regions : list string;
  encryption_metadata : gmap string string
}.

Definition set_allowed_users (v : list string) (m : t) : t :=
  mk (owner m) (original_filename m) (uploaded_at m) v (access_start_time m)
     (access_end_time m) (allowed_regions m) (encryption_metadata m).

Definition set_access_start_time (v : string) (m : t) : t :=
  mk (owner m) (original_filename m) (uploaded_at m) (allowed_users m) v
     (access_end_time m) (allowed_regions m) (encryption_metadata m).

Definition set_access_end_time (v : string) (m : t) : t :=
  mk (owner m) (original_filename m) (uploaded_at m) (allowed_users m)
     (access_start_time m) v (allowed_regions m) (encryption_metadata m).

Definition set_allowed_regions (v : list string) (m : t) : t :=
  mk (owner m) (original_filename m) (uploaded_at m) (allowed_users m)
     (access_start_time m) (access_end_time m) v (encryption_metadata m).
End Meta.

(** The [metadata] argument of [save_file_metadata]: every key is read
    with [.get(key, default)]. *)
Module Upload.
Record t := mk {
  access_start_time : option string;
  access_end_time : option string;
  allowed_regions : option (list string);
  encryption_metadata : option (gmap string string)
}.
End Upload.

(** The [access_times] argument of [update_file_access]. *)
Module Window.
Record t := mk { start : string; end_ : string }.
End Window.

(** One entry of [audit_log.json]. *)
Module Log.
Record t := mk {
  timestamp : string;
  event_type : string;
  username : string;
  file_id : option string;
  ip_address : option string;
  success : bool;
  details : gmap string string
}.
End Log.

(** The [{'success': ..., 'message': ...}] answers of the database. *)
Module Res.
Record t := mk { success : bool; message : string }.
End Res.

(** What [get_location_from_ip] returns: a dictionary with
    ['success': True] and the place, or one with ['success': False] and a
    reason.  The local short-circuit sets no ['region'] key. *)
Module Loc.
Inductive t :=
| Found (country_code country city : string) (region : option string)
        (ip : string) (is_local : bool)
| Failed (reason ip : string).

Definition success (l : t) : bool :=
  match l with Found _ _ _ _ _ _ => true | Failed _ _ => false end.

Definition reason (l : t) : option string :=
  match l with Found _ _ _ _ _ _ => None | Failed r _ => Some r end.
End Loc.

(** The dictionary a gate returns. *)
Module Gate.
Record t := mk {
  allowed : bool;
  reason : string;
  check : string;
  current_time : option string;
  location : option Loc.t
}.
End Gate.

(** Insertion-ordered dictionaries with string keys: [d[k] = v]. *)
Fixpoint dict_set {V} (k : string) (v : V) (d : list (string * V))
  : list (string * V) :=
  match d with
  | [] => [(k, v)]
  | (k', v') :: d' =>
      if String.eqb k k' then (k, v) :: d' else (k', v') :: dict_set k v d'
  end.

(** The dictionary [verify_access] returns. *)
Module Verdict.
Record t := mk {
  allowed : bool;
  username : string;
  file_id : string;
  ip_address : string;
  timestamp : string;
  checks : list (string * Gate.t);
  denied_reason : option string;
  failed_check : option string;
  message : option string
}.

Definition set_check (k : string) (g : Gate.t) (v : t) : t :=
  mk (allowed v) (username v) (file_id v) (ip_address v) (timestamp v)
     (dict_set k g (checks v)) (denied_reason v) (failed_check v) (message v).

Definition deny (why gate : string) (v : t) : t :=
  mk (allowed v) (username v) (file_id v) (ip_address v) (timestamp v)
     (checks v) (Some why) (Some gate) (message v).

Definition grant (msg : string) (v : t) : t :=
  mk true (username v) (file_id v) (ip_address v) (timestamp v)
     (checks v) (denied_reason v) (failed_check v) (Some msg).
End Verdict.

(** What [requests.get(url, timeout=3)] can do: raise (time-out,
    transport error), or answer with a status code and a body that is or
    is not JSON.  The fields the code reads of the JSON object are
    strings. *)
Module Http.
Inductive body :=
| NotJson (err : string)
| Json (data : gmap string string).

Inductive outcome :=
| Raised (err : string)
| Response (status_code : Z) (b : body).
End Http.

(** ** The world: the two JSON files, the clock and the network

    Each call of [datetime.now()] reads the clock and lets time pass:
    [clock w n] is what the [n]-th call returns.  Each call of
    [requests.get] is recorded in [requests], oldest first, and answered
    by [network].  The store is reliable: reading and writing the JSON
    files succeeds. *)

Record World := mk_world {
  files : gmap string Meta.t;
  audit_logs : list Log.t;
  clock : nat -> datetime;
  ticks : nat;
  network : string -> Http.outcome;
  requests : list string
}.

Definition M (A : Type) : Type := World -> A * World.

Definition ret {A} (a : A) : M A := fun w => (a, w).

Definition bind {A B} (m : M A) (k : A -> M B) : M B :=
  fun w => let (a, w') := m w in k a w'.

Notation "'let*' x ':=' m 'in' k" := (bind m (fun x => k))
  (at level 10, x name, m at level 100, k at level 200).

Definition datetime_now : M datetime :=
  fun w => (clock w (ticks w),
            mk_world (files w) (audit_logs w) (clock w) (S (ticks w))
                     (network w) (requests w)).

Definition requests_get (url : string) : M Http.outcome :=
  fun w => (network w url,
            mk_world (files w) (audit_logs w) (clock w) (ticks w)
                     (network w) (requests w ++ [url])%list).

(** ** [database.py] *)

(** [_read_json(self.files_file)]. *)
Definition read_files : M (gmap string Meta.t) := fun w => (files w, w).

(** [_write_json(self.files_file, data)]. *)
Definition write_files (data : gmap string Meta.t) : M bool :=
  fun w => (true, mk_world data (audit_logs w) (clock w) (ticks w)
                           (network w) (requests w)).

(** [_read_json(self.audit_file)]. *)
Definition read_audit : M (list Log.t) := fun w => (audit_logs w, w).

(** [_write_json(self.audit_file, data)]. *)
Definition write_audit (data : list Log.t) : M bool :=
  fun w => (true, mk_world (files w) data (clock w) (ticks w)
                           (network w) (requests w)).

Definition save_file_metadata (file_id owner original_filename : string)
    (metadata : Upload.t) : M Res.t :=
  let* files := read_files in
  let* now := datetime_now in
  let files :=
    <[file_id :=
        Meta.mk owner original_filename (isoformat now)
          [owner]
          (default "09:00" (Upload.access_start_time metadata))
          (default "18:00" (Upload.access_end_time metadata))
          (default ["IN"; "US"; "GB"] (Upload.allowed_regions metadata))
          (default ∅ (Upload.encryption_metadata metadata))]> files in
  let* ok := write_files files in
  ret (if ok : bool then Res.mk true "File metadata saved"
       else Res.mk false "Failed to save metadata").

Definition get_file_metadata (file_id : string) : M (option Meta.t) :=
  let* files := read_files in
  ret (files !! file_id).

Definition update_file_access (file_id : string)
    (allowed_users : option (list string)) (access_times : option Window.t)
    (allowed_regions : option (list string)) : M Res.t :=
  let* files := read_files in
  if negb (bool_decide (is_Some (files !! file_id)))
  then ret (Res.mk false "File not found")
  else
    let files :=
      match allowed_users with
      | Some us => alter (Meta.set_allowed_users us) file_id files
      | None => files
      end in
    let files :=
      match access_times with
      | Some t =>
          alter (Meta.set_access_end_time (Window.end_ t)) file_id
            (alter (Meta.set_access_start_time (Window.start t)) file_id files)
      | None => files
      end in
    let files :=
      match allowed_regions with
      | Some rs => alter (Meta.set_allowed_regions rs) file_id files
      | None => files
      end in
    let* ok := write_files files in
    ret (if ok : bool then Res.mk true "Access control updated"
         else Res.mk false "Failed to update access control").

Definition log_event (event_type username : string) (file_id : option string)
    (details : option (gmap string string)) (ip_address : option string)
    (success : bool) : M unit :=
  let* audit_logs := read_audit in
  let* now := datetime_now in
  let log_entry :=
    Log.mk (isoformat now) event_type username file_id ip_address success
           (default ∅ details) in
  let audit_logs := (audit_logs ++ [log_entry])%list in
  let audit_logs :=
    if (1000 <? length audit_logs)%nat
    then Py.slice_from (-1000) audit_logs
    else audit_logs in
  let* _ := write_audit audit_logs in
  ret tt.

Definition get_audit_logs (username file_id : option string) (limit : Z)
  : M (list Log.t) :=
  let* audit_logs := read_audit in
  let filtered_logs := audit_logs in
  let filtered_logs :=
    if Py.truthy username
    then filter (fun log => Some (Log.username log) = username) filtered_logs
    else filtered_logs in
  let filtered_logs :=
    if Py.truthy file_id
    then filter (fun log => Log.file_id log = file_id) filtered_logs
    else filtered_logs in
  ret (Py.reversed (Py.slice_from (- limit) filtered_logs)).

(** ** [access_control.py] *)

Definition check_user_permission (username file_id : string) : M Gate.t :=
  let* file_meta := get_file_metadata file_id in
  match file_meta with
  | None => ret (Gate.mk false "File not found" "file_exists" None None)
  | Some file_meta =>
      if negb (Py.contains username (Meta.allowed_users file_meta))
      then ret (Gate.mk false
                  ("User " +:+ username +:+
                   " not authorized to access this file")
                  "user_permission" None None)
      else ret (Gate.mk true "User has permission" "user_permission"
                  None None)
  end.

(** The body of the [try] block of [check_time_based_access]: both
    window strings parsed, or the text of the first exception. *)
Definition parse_window (file_meta : Meta.t) : string + time * time :=
  match Strptime.strptime_HM (Meta.access_start_time file_meta) with
  | inl e => inl e
  | inr start_time =>
      match Strptime.strptime_HM (Meta.access_end_time file_meta) with
      | inl e => inl e
      | inr end_time => inr (start_time, end_time)
      end
  end.

Definition check_time_based_access (file_id : string) : M Gate.t :=
  let* file_meta := get_file_metadata file_id in
  match file_meta with
  | None => ret (Gate.mk false "File not found" "time_based" None None)
  | Some file_meta =>
      let* now := datetime_now in
      let current_time := time_of now in
      match parse_window file_meta with
      | inl e =>
          ret (Gate.mk false
                 ("Invalid time format in file metadata: " +:+ e)
                 "time_based" None None)
      | inr (start_time, end_time) =>
          if time_le start_time current_time && time_le current_time end_time
          then ret (Gate.mk true
                      ("Access allowed between " +:+
                       Meta.access_start_time file_meta +:+ " and " +:+
                       Meta.access_end_time file_meta)
                      "time_based" (Some (strftime_HMS current_time)) None)
          else ret (Gate.mk false
                      ("Access only allowed between " +:+
                       Meta.access_start_time file_meta +:+ " and " +:+
                       Meta.access_end_time file_meta)
                      "time_based" (Some (strftime_HMS current_time)) None)
      end
  end.

(** The test that guards the short-circuit of [get_location_from_ip]. *)
Definition skips_lookup (ip_address : string) : bool :=
  Py.contains ip_address ["127.0.0.1"; "localhost"] ||
  Py.startswith ip_address "192.168.".

Definition get_location_from_ip (ip_address : string) : M Loc.t :=
  if skips_lookup ip_address
  then ret (Loc.Found "IN" "India" "Local" None ip_address true)
  else
    let* response := requests_get ("http://ip-api.com/json/" +:+ ip_address) in
    match response with
    | Http.Raised e =>
        ret (Loc.Failed ("Location lookup failed: " +:+ e) ip_address)
    | Http.Response status_code body =>
        if status_code =? 200
        then
          match body with
          | Http.NotJson e =>
              ret (Loc.Failed ("Location lookup failed: " +:+ e) ip_address)
          | Http.Json data =>
              match data !! "status" with
              | None =>
                  ret (Loc.Failed "Location lookup failed: 'status'"
                         ip_address)
              | Some status =>
                  if String.eqb status "success"
                  then ret (Loc.Found
                              (default "UNKNOWN" (data !! "countryCode"))
                              (default "Unknown" (data !! "country"))
                              (default "Unknown" (data !! "city"))
                              (Some (default "Unknown" (data !! "regionName")))
                              ip_address false)
                  else ret (Loc.Failed "Failed to get location data"
                              ip_address)
              end
          end
        else ret (Loc.Failed "Failed to get location data" ip_address)
    end.

(** Every failure dictionary carries a ['reason'], so the default of
    [location.get('reason', ...)] is kept only to follow the source. *)
Definition check_location_based_access (file_id ip_address : string)
  : M Gate.t :=
  let* file_meta := get_file_metadata file_id in
  match file_meta with
  | None => ret (Gate.mk false "File not found" "location_based" None None)
  | Some file_meta =>
      let* location := get_location_from_ip ip_address in
      match location with
      | Loc.Failed _ _ =>
          ret (Gate.mk false
                 (default "Unable to verify location" (Loc.reason location))
                 "location_based" None None)
      | Loc.Found country_code country _ _ _ _ =>
          let allowed_regions := Meta.allowed_regions file_meta in
          if Py.contains country_code allowed_regions
          then ret (Gate.mk true
                      ("Access allowed from " +:+ country +:+ " (" +:+
                       country_code +:+ ")")
                      "location_based" None (Some location))
          else ret (Gate.mk false
                      ("Access denied from " +:+ country +:+ " (" +:+
                       country_code +:+ "). Allowed regions: " +:+
                       Py.join ", " allowed_regions)
                      "location_based" None (Some location))
      end
  end.

Definition verify_access (username file_id ip_address : string)
  : M Verdict.t :=
  let* now := datetime_now in
  let verification_results :=
    Verdict.mk false username file_id ip_address (isoformat now) []
               None None None in
  let* user_check := check_user_permission username file_id in
  let verification_results :=
    Verdict.set_check "user_permission" user_check verification_results in
  if negb (Gate.allowed user_check)
  then ret (Verdict.deny (Gate.reason user_check) "user_permission"
              verification_results)
  else
    let* time_check := check_time_based_access file_id in
    let verification_results :=
      Verdict.set_check "time_based" time_check verification_results in
    if negb (Gate.allowed time_check)
    then ret (Verdict.deny (Gate.reason time_check) "time_based"
                verification_results)
    else
      let* location_check := check_location_based_access file_id ip_address in
      let verification_results :=
        Verdict.set_check "location_based" location_check
          verification_results in
      if negb (Gate.allowed location_check)
      then ret (Verdict.deny (Gate.reason location_check) "location_based"
                  verification_results)
      else ret (Verdict.grant
                  "All Zero-Trust checks passed - Access granted!"
                  verification_results).

(** ** Sample worlds *)

Definition noon : datetime := mk_datetime 2024 3 7 (mk_time 12 0 0 0).

(** A world with empty files, a clock that always shows [d] and a
    network on which every request times out. *)
Definition offline_world (d : datetime) : World :=
  mk_world ∅ [] (fun _ => d) 0
    (fun _ => Http.Raised "Read timed out. (read timeout=3)") [].

(** The same world with another network. *)
Definition with_network (net : string -> Http.outcome) (w : World) : World :=
  mk_world (files w) (audit_logs w) (clock w) (ticks w) net (requests w).

(** The same world with other files. *)
Definition with_files (fs : gmap string Meta.t) (w : World) : World :=
  mk_world fs (audit_logs w) (clock w) (ticks w) (network w) (requests w).

(** The world in which the clock shows [d] from now on. *)
Definition at_time (d : datetime) (w : World) : World :=
  mk_world (files w) (audit_logs w) (fun _ => d) (ticks w) (network w)
           (requests w).

(** The policy of the end-to-end scenario. *)
Definition alice_policy : Meta.t :=
  Meta.mk "alice" "report.pdf" "2024-03-01T08:00:00" ["alice"]
          "09:00" "18:00" ["US"] ∅.

(** A lookup service that places every address in France. *)
Definition france : string -> Http.outcome :=
  fun _ => Http.Response 200
    (Http.Json (<["status" := "success"]> (<["countryCode" := "FR"]>
               (<["country" := "France"]> ∅)))).

(** ** Vocabulary of the statements *)

(** The world after one reading of the clock. *)
Definition tick (w : World) : World := (datetime_now w).2.

(** [unchanged w w'] says that the policy store and the audit log of
    [w'] are those of [w]. *)
Definition unchanged (w w' : World) : Prop :=
  files w' = files w /\ audit_logs w' = audit_logs w.

(** The answers of the lookup service that are not a resolution: an
    exception (time-out, transport error), a status code other than 200,
    a body that is not JSON, and JSON whose ["status"] is missing or not
    ["success"]. *)
Definition lookup_failed (o : Http.outcome) : bool :=
  match o with
  | Http.Raised _ => true
  | Http.Response status_code b =>
      negb (status_code =? 200) ||
      match b with
      | Http.NotJson _ => true
      | Http.Json data => negb (bool_decide (data !! "status" = Some "success"))
      end
  end.

(** The arguments of one call of [log_event]. *)
Module Event.
Record t := mk {
  event_type : string;
  username : string;
  file_id : option string;
  details : option (gmap string string);
  ip_address : option string;
  success : bool
}.
End Event.

Definition log_event_of (e : Event.t) : M unit :=
  log_event (Event.event_type e) (Event.username e) (Event.file_id e)
            (Event.details e) (Event.ip_address e) (Event.success e).

(** A sequence of calls of [log_event], first to last. *)
Fixpoint log_events (es : list Event.t) : M unit :=
  match es with
  | [] => ret tt
  | e :: es' => let* _ := log_event_of e in log_events es'
  end.

(** The entry [log_event] builds for [e] when the clock shows [d]. *)
Definition entry_of (d : datetime) (e : Event.t) : Log.t :=
  Log.mk (isoformat d) (Event.event_type e) (Event.username e)
         (Event.file_id e) (Event.ip_address e) (Event.success e)
         (default ∅ (Event.details e)).

(** The entries built by successive calls, the first of which reads the
    clock for the [n]-th time. *)
Fixpoint entries_from (clk : nat -> datetime) (n : nat) (es : list Event.t)
  : list Log.t :=
  match es with
  | [] => []
  | e :: es' => entry_of (clk n) e :: entries_from clk (S n) es'
  end.

(** The last [n] elements of a list, all of it when it is shorter. *)
Definition newest {A} (n : nat) (l : list A) : list A :=
  drop (length l - n) l.

(** Whether an entry passes the filters of [get_audit_logs] that are in
    force. *)
Definition passes (username file_id : option string) (log : Log.t) : Prop :=
  (Py.truthy username = true -> Some (Log.username log) = username) /\
  (Py.truthy file_id = true -> Log.file_id log = file_id).

#[local] Instance passes_dec username file_id log :
  Decision (passes username file_id log).
Proof. unfold passes. apply _. Defined.

(** A login event of [user]. *)
Definition login (user : string) : Event.t :=
  Event.mk "LOGIN_SUCCESS" user None None (Some "127.0.0.1") true.

(** The world of [alice_policy], stored under ["f"], at noon and
    without network. *)
Definition alice_world : World :=
  with_files (<["f" := alice_policy]> ∅) (offline_world noon).

(** The audit log after alice, then bob, logged in. *)
Definition two_logins : World :=
  (log_events [login "alice"; login "bob"] (offline_world noon)).2.

(** The store after alice uploaded ["f"] with the default policy. *)
Definition uploaded : World :=
  (save_file_metadata "f" "alice" "report.pdf"
     (Upload.mk None None None None) (offline_world noon)).2.

(** The same store after the access list of ["f"] was replaced by
    bob alone, as the share request of the owner does. *)
Definition shared_with_bob : World :=
  (update_file_access "f" (Some ["bob"]) None None uploaded).2.

(** [alice_world] when the clock shows [t]. *)
Definition alice_world_at (t : time) : World :=
  at_time (mk_datetime 2024 3 7 t) alice_world.

(** A store in which the window of ["f"] starts at ["9am"]. *)
Definition broken_window_world : World :=
  with_files (<["f" := Meta.set_access_start_time "9am" alice_policy]> ∅)
    (offline_world noon).

(** One login of ["first"] followed by a thousand of ["later"]. *)
Definition busy_day : list Event.t :=
  login "first" :: replicate 1000 (login "later").

(** ** [database.py]: listing and deleting policies

    The two listings build a dictionary out of the entries of
    [files.json] that satisfy a test; a dictionary is taken up to the
    order of its keys. *)

Definition list_files_by_owner (owner : string) : M (gmap string Meta.t) :=
  let* files := read_files in
  ret (filter (fun entry => Meta.owner entry.2 = owner) files).

Definition list_accessible_files (username : string)
  : M (gmap string Meta.t) :=
  let* files := read_files in
  ret (filter (fun entry => username ∈ Meta.allowed_users entry.2) files).

Definition delete_file_metadata (file_id : string) : M Res.t :=
  let* files := read_files in
  if negb (bool_decide (is_Some (files !! file_id)))
  then ret (Res.mk false "File not found")
  else
    let files := delete file_id files in
    let* ok := write_files files in
    ret (if ok : bool then Res.mk true "File metadata deleted"
         else Res.mk false "Failed to delete metadata").

(** ** [audit_logger.py]

    The [print] calls are left out.  [log_upload] and
    [log_permission_change] store a number and a nested dictionary in
    [details] and are not modelled. *)

(** [d.get(k)] on an insertion-ordered dictionary. *)
Fixpoint dict_get {V} (k : string) (d : list (string * V)) : option V :=
  match d with
  | [] => None
  | (k', v) :: d' => if String.eqb k k' then Some v else dict_get k d'
  end.

Definition log_download (username file_id filename ip_address : string)
    (success : bool) : M unit :=
  log_event "FILE_DOWNLOAD" username (Some file_id)
    (Some (<["filename" := filename]>
          (<["action" := if success then "File downloaded and decrypted"
                         else "Download failed"]> ∅)))
    (Some ip_address) success.

(** [log_details.update(details)] lets the keys of [details] win. *)
Definition log_access_denied
    (username file_id reason failed_check ip_address : string)
    (details : option (gmap string string)) : M unit :=
  let log_details : gmap string string :=
    <["reason" := reason]>
    (<["failed_check" := failed_check]>
    (<["action" := "Access denied by Zero-Trust policy"]> ∅)) in
  let log_details :=
    match details with
    | Some d => if bool_decide (d = ∅) then log_details else d ∪ log_details
    | None => log_details
    end in
  log_event "ACCESS_DENIED" username (Some file_id) (Some log_details)
    (Some ip_address) false.

Definition log_file_deletion (username file_id filename ip_address : string)
  : M unit :=
  log_event "FILE_DELETE" username (Some file_id)
    (Some (<["filename" := filename]>
          (<["action" := "File permanently deleted"]> ∅)))
    (Some ip_address) true.

Definition log_authentication (username event_type ip_address : string)
    (success : bool) (details : option (gmap string string)) : M unit :=
  log_event event_type username None (Some (default ∅ details))
    (Some ip_address) success.

(** The dictionaries of the three activity queries; a query sets the
    key it was asked about. *)
Module Activity.
Record t := mk {
  success : bool;
  username : option string;
  file_id : option string;
  total_events : Z;
  logs : list Log.t
}.
End Activity.

Definition get_user_activity (username : string) (limit : Z)
  : M Activity.t :=
  let* logs := get_audit_logs (Some username) None limit in
  ret (Activity.mk true (Some username) None (Z.of_nat (length logs)) logs).

Definition get_file_activity (file_id : string) (limit : Z)
  : M Activity.t :=
  let* logs := get_audit_logs None (Some file_id) limit in
  ret (Activity.mk true None (Some file_id) (Z.of_nat (length logs)) logs).

Definition get_recent_activity (limit : Z) : M Activity.t :=
  let* logs := get_audit_logs None None limit in
  ret (Activity.mk true None None (Z.of_nat (length logs)) logs).

(** The [summary] dictionary of [get_security_summary]. *)
Module Summary.
Record t := mk {
  total_events : Z;
  successful_events : Z;
  failed_events : Z;
  access_denied : Z;
  uploads : Z;
  downloads : Z;
  login_attempts : Z;
  failed_logins : Z;
  event_types : list (string * Z)
}.

Definition add_successful (s : t) : t :=
  mk (total_events s) (successful_events s + 1) (failed_events s)
     (access_denied s) (uploads s) (downloads s) (login_attempts s)
     (failed_logins s) (event_types s).

Definition add_failed (s : t) : t :=
  mk (total_events s) (successful_events s) (failed_events s + 1)
     (access_denied s) (uploads s) (downloads s) (login_attempts s)
     (failed_logins s) (event_types s).

Definition add_access_denied (s : t) : t :=
  mk (total_events s) (successful_events s) (failed_events s)
     (access_denied s + 1) (uploads s) (downloads s) (login_attempts s)
     (failed_logins s) (event_types s).

Definition add_upload (s : t) : t :=
  mk (total_events s) (successful_events s) (failed_events s)
     (access_denied s) (uploads s + 1) (downloads s) (login_attempts s)
     (failed_logins s) (event_types s).

Definition add_download (s : t) : t :=
  mk (total_events s) (successful_events s) (failed_events s)
     (access_denied s) (uploads s) (downloads s + 1) (login_attempts s)
     (failed_logins s) (event_types s).

Definition add_login_attempt (s : t) : t :=
  mk (total_events s) (successful_events s) (failed_events s)
     (access_denied s) (uploads s) (downloads s) (login_attempts s + 1)
     (failed_logins s) (event_types s).

Definition add_failed_login (s : t) : t :=
  mk (total_events s) (successful_events s) (failed_events s)
     (access_denied s) (uploads s) (downloads s) (login_attempts s)
     (failed_logins s + 1) (event_types s).

Definition set_event_types (v : list (string * Z)) (s : t) : t :=
  mk (total_events s) (successful_events s) (failed_events s)
     (access_denied s) (uploads s) (downloads s) (login_attempts s)
     (failed_logins s) v.
End Summary.

(** The body of the loop of [get_security_summary]. *)
Definition summary_step (summary : Summary.t) (log : Log.t) : Summary.t :=
  let summary :=
    if Log.success log then Summary.add_successful summary
    else Summary.add_failed summary in
  let event_type := Log.event_type log in
  let summary :=
    Summary.set_event_types
      (dict_set event_type
         (default 0 (dict_get event_type (Summary.event_types summary)) + 1)
         (Summary.event_types summary))
      summary in
  if String.eqb event_type "ACCESS_DENIED"
  then Summary.add_access_denied summary
  else if String.eqb event_type "FILE_UPLOAD"
  then Summary.add_upload summary
  else if String.eqb event_type "FILE_DOWNLOAD"
  then Summary.add_download summary
  else if Py.contains event_type ["LOGIN_SUCCESS"; "LOGIN_FAILED"]
  then
    let summary := Summary.add_login_attempt summary in
    if String.eqb event_type "LOGIN_FAILED"
    then Summary.add_failed_login summary
    else summary
  else summary.

(** What [get_security_summary] returns. *)
Module SummaryAnswer.
Record t := mk { success : bool; summary : Summary.t }.
End SummaryAnswer.

Definition get_security_summary (username : option string)
  : M SummaryAnswer.t :=
  let* logs := get_audit_logs username None 1000 in
  let summary := Summary.mk (Z.of_nat (length logs)) 0 0 0 0 0 0 0 [] in
  let summary := fold_left summary_step logs summary in
  ret (SummaryAnswer.mk true summary).

(** ** [app.py]: the helpers of the request layer

    One [ascii] stands for one character, so the texts are those within
    Latin-1; [len] is [String.length]. *)

(** [c.lower()] for one character. *)
Definition lower_char (c : ascii) : ascii :=
  let n := nat_of_ascii c in
  if ((65 <=? n) && (n <=? 90))%nat then ascii_of_nat (n + 32)
  else if ((192 <=? n) && (n <=? 222) && negb (n =? 215))%nat
  then ascii_of_nat (n + 32)
  else c.

(** [s.lower()]. *)
Fixpoint lower (s : string) : string :=
  match s with
  | EmptyString => EmptyString
  | String c r => String (lower_char c) (lower r)
  end.

(** [c in s] for one character. *)
Fixpoint has_char (c : ascii) (s : string) : bool :=
  match s with
  | EmptyString => false
  | String c' r => Ascii.eqb c c' || has_char c r
  end.

(** [s.rsplit('.', 1)[1]] when [s] has a dot: the text after the last
    one. *)
Fixpoint after_last_dot (s : string) : option string :=
  match s with
  | EmptyString => None
  | String c r =>
      match after_last_dot r with
      | Some t => Some t
      | None => if Ascii.eqb c "." then Some r else None
      end
  end.

(** [s.split(',')[0]]: the text before the first comma. *)
Fixpoint before_comma (s : string) : string :=
  match s with
  | EmptyString => EmptyString
  | String c r => if Ascii.eqb c "," then EmptyString
                  else String c (before_comma r)
  end.

Definition ALLOWED_EXTENSIONS : list string :=
  ["txt"; "pdf"; "png"; "jpg"; "jpeg"; "gif"; "doc"; "docx"; "xlsx"; "zip"].

Definition allowed_file (filename : string) : bool :=
  has_char "." filename &&
  match after_last_dot filename with
  | Some ext => Py.contains (lower ext) ALLOWED_EXTENSIONS
  | None => false
  end.

Definition get_file_extension (filename : string) : string :=
  if has_char "." filename
  then match after_last_dot filename with
       | Some ext => lower ext
       | None => ""
       end
  else "".

(** [get_client_ip()], as a function of the two things it reads of the
    request: the [X-Forwarded-For] header and [remote_addr]. *)
Definition get_client_ip (x_forwarded_for remote_addr : option string)
  : string :=
  if Py.truthy x_forwarded_for
  then before_comma (default "" x_forwarded_for)
  else if Py.truthy remote_addr then default "" remote_addr
       else "127.0.0.1".

(** ** [database.py]: the users

    [users.json] is a dictionary from user names to user records, kept
    in insertion order.  The state of the site is the world above, the
    users, and the source of the random salts: [salts s n] is what the
    [n]-th call of [bcrypt.gensalt()] returns. *)

Module User.
Record t := mk {
  email : string;
  password_hash : string;
  created_at : string;
  role : string
}.
End User.

(** A user record with its name, as [get_user_by_email] returns it. *)
Module NamedUser.
Record t := mk {
  email : string;
  password_hash : string;
  created_at : string;
  role : string;
  username : string
}.
End NamedUser.

(** A user record without its password hash, as [list_users] returns
    it. *)
Module SafeUser.
Record t := mk { email : string; created_at : string; role : string }.
End SafeUser.

Record Site := mk_site {
  world : World;
  users : list (string * User.t);
  salts : nat -> string;
  drawn : nat
}.

Definition MS (A : Type) : Type := Site -> A * Site.

Definition ret_s {A} (a : A) : MS A := fun s => (a, s).

Definition bind_s {A B} (m : MS A) (k : A -> MS B) : MS B :=
  fun s => let (a, s') := m s in k a s'.

Notation "'let+' x ':=' m 'in' k" := (bind_s m (fun x => k))
  (at level 10, x name, m at level 100, k at level 200).

(** A computation on the files, the audit log, the clock and the
    network, run inside the site. *)
Definition lift {A} (m : M A) : MS A :=
  fun s => let (a, w') := m (world s) in
           (a, mk_site w' (users s) (salts s) (drawn s)).

(** [_read_json(self.users_file)]. *)
Definition read_users : MS (list (string * User.t)) :=
  fun s => (users s, s).

(** [_write_json(self.users_file, data)]. *)
Definition write_users (data : list (string * User.t)) : MS bool :=
  fun s => (true, mk_site (world s) data (salts s) (drawn s)).

(** The loop of [create_user] over [users.values()]. *)
Fixpoint email_registered (email : string) (users : list (string * User.t))
  : bool :=
  match users with
  | [] => false
  | (_, user_data) :: users' =>
      if String.eqb (User.email user_data) email then true
      else email_registered email users'
  end.

Definition create_user (username email password_hash : string) : MS Res.t :=
  let+ users := read_users in
  if bool_decide (is_Some (dict_get username users))
  then ret_s (Res.mk false "Username already exists")
  else if email_registered email users
  then ret_s (Res.mk false "Email already registered")
  else
    let+ now := lift datetime_now in
    let users :=
      dict_set username
        (User.mk email password_hash (isoformat now) "user") users in
    let+ ok := write_users users in
    ret_s (if ok : bool then Res.mk true "User created successfully"
           else Res.mk false "Failed to save user").

Definition get_user (username : string) : MS (option User.t) :=
  let+ users := read_users in
  ret_s (dict_get username users).

(** The loop of [get_user_by_email] over [users.items()]. *)
Fixpoint find_by_email (email : string) (users : list (string * User.t))
  : option NamedUser.t :=
  match users with
  | [] => None
  | (username, user_data) :: users' =>
      if String.eqb (User.email user_data) email
      then Some (NamedUser.mk (User.email user_data)
                   (User.password_hash user_data) (User.created_at user_data)
                   (User.role user_data) username)
      else find_by_email email users'
  end.

Definition get_user_by_email (email : string) : MS (option NamedUser.t) :=
  let+ users := read_users in
  ret_s (find_by_email email users).

Definition list_users : MS (list (string * SafeUser.t)) :=
  let+ users := read_users in
  ret_s (fold_left
           (fun safe_users entry =>
              dict_set entry.1
                (SafeUser.mk (User.email entry.2) (User.created_at entry.2)
                   (User.role entry.2))
                safe_users)
           users []).

(** ** [user_manager.py]

    The two libraries are taken as they come.  [hashpw password salt]
    stands for [bcrypt.hashpw(password.encode('utf-8'), salt)] decoded,
    [checkpw password hashed] for [bcrypt.checkpw] on the encoded
    arguments, [access_token identity role] and [refresh_token identity]
    for [create_access_token] and [create_refresh_token] with the
    arguments the code passes; the left summand is the text of an
    exception. *)

(** What [login_user] returns. *)
Module Login.
Record user := mk_user { username : string; email : string; role : string }.
Record t := mk {
  success : bool;
  message : string;
  access_token : option string;
  refresh_token : option string;
  user_info : option user
}.
End Login.

(** What [get_user_info] returns. *)
Module Info.
Record user := mk_user {
  username : string;
  email : string;
  role : string;
  created_at : string
}.
Record t := mk {
  success : bool;
  message : option string;
  user_info : option user
}.
End Info.

Section UserManager.

Variable hashpw : string -> string -> string + string.
Variable checkpw : string -> string -> string + bool.
Variable access_token : string -> string -> string + string.
Variable refresh_token : string -> string + string.

(** [bcrypt.gensalt()]. *)
Definition gensalt : MS string :=
  fun s => (salts s (drawn s),
            mk_site (world s) (users s) (salts s) (S (drawn s))).

Definition hash_password (password : string) : MS (string + string) :=
  let+ salt := gensalt in
  ret_s (hashpw password salt).

Definition verify_password (password hashed_password : string)
  : string + bool :=
  checkpw password hashed_password.

Definition register_user (username email password : string) : MS Res.t :=
  if String.eqb username "" || (String.length username <? 3)%nat
  then ret_s (Res.mk false "Username must be at least 3 characters long")
  else if String.eqb email "" || negb (has_char "@" email)
  then ret_s (Res.mk false "Invalid email address")
  else if String.eqb password "" || (String.length password <? 6)%nat
  then ret_s (Res.mk false "Password must be at least 6 characters long")
  else
    let+ hashed := hash_password password in
    match hashed with
    | inl e => ret_s (Res.mk false ("Registration failed: " +:+ e))
    | inr password_hash =>
        let+ result := create_user username email password_hash in
        if Res.success result
        then
          let+ _ := lift (log_event "REGISTER" username None
                            (Some (<["email" := email]> ∅)) None true) in
          ret_s result
        else ret_s result
    end.

Definition login_user (username password : string)
    (ip_address : option string) : MS Login.t :=
  let+ user := get_user username in
  match user with
  | None =>
      let+ _ := lift (log_event "LOGIN_FAILED" username None
                        (Some (<["reason" := "User not found"]> ∅))
                        ip_address false) in
      ret_s (Login.mk false "Invalid username or password" None None None)
  | Some user =>
      match verify_password password (User.password_hash user) with
      | inl e =>
          ret_s (Login.mk false ("Login failed: " +:+ e) None None None)
      | inr false =>
          let+ _ := lift (log_event "LOGIN_FAILED" username None
                            (Some (<["reason" := "Wrong password"]> ∅))
                            ip_address false) in
          ret_s (Login.mk false "Invalid username or password" None None None)
      | inr true =>
          match access_token username (User.role user) with
          | inl e =>
              ret_s (Login.mk false ("Login failed: " +:+ e) None None None)
          | inr access =>
              match refresh_token username with
              | inl e =>
                  ret_s (Login.mk false ("Login failed: " +:+ e)
                           None None None)
              | inr refresh =>
                  let+ _ := lift (log_event "LOGIN_SUCCESS" username None
                                    None ip_address true) in
                  ret_s (Login.mk true "Login successful" (Some access)
                           (Some refresh)
                           (Some (Login.mk_user username (User.email user)
                                    (User.role user))))
              end
          end
      end
  end.

Definition get_user_info (username : string) : MS Info.t :=
  let+ user := get_user username in
  match user with
  | None => ret_s (Info.mk false (Some "User not found") None)
  | Some user =>
      ret_s (Info.mk true None
               (Some (Info.mk_user username (User.email user)
                        (User.role user) (User.created_at user))))
  end.

End UserManager.

(** A site with no user, on the given world. *)
Definition empty_site (w : World) : Site :=
  mk_site w [] (fun _ => "$2b$12$saltsaltsaltsaltsaltse") 0.

(** Stand-ins for the libraries in the instances below: the hash of a
    password is the salt followed by the password, and a token is its
    kind followed by the identity. *)
Definition toy_hashpw (password salt : string) : string + string :=
  inr (salt +:+ password).

Definition toy_checkpw (password hashed : string) : string + bool :=
  inr (String.eqb hashed ("$2b$12$saltsaltsaltsaltsaltse" +:+ password)).

Definition toy_access_token (identity role : string) : string + string :=
  inr ("access:" +:+ identity +:+ ":" +:+ role).

Definition toy_refresh_token (identity : string) : string + string :=
  inr ("refresh:" +:+ identity).

(** ** Vocabulary of the further statements *)

(** The number of entries of [l] that satisfy [P], as a Python [int]. *)
Definition count_of (P : Log.t -> Prop) `{!forall x, Decision (P x)}
    (l : list Log.t) : Z :=
  Z.of_nat (length (filter P l)).

(** The number of entries of [l] of the event type [t]. *)
Definition count_type (t : string) (l : list Log.t) : Z :=
  count_of (fun log => Log.event_type log = t) l.

(** The entries [get_security_summary] looks at, oldest first: the
    newest 1000 entries of the given user, or of everybody. *)
Definition considered (username : option string) (w : World) : list Log.t :=
  newest 1000 (filter (passes username None) (audit_logs w)).

(** A lookup service that resolves every address but names no
    country code. *)
Definition no_country : string -> Http.outcome :=
  fun _ => Http.Response 200 (Http.Json (<["status" := "success"]> ∅)).

(** [alice_world] on that service. *)
Definition no_country_world : World := with_network no_country alice_world.

(** A site without users, at noon and without network. *)
Definition fresh_site : Site := empty_site (offline_world noon).

(** The same site once alice has registered. *)
Definition registered_site : Site :=
  (register_user toy_hashpw "alice" "alice@example.com" "secret1"
     fresh_site).2.

(** * Properties *)

(** ** Running a computation *)

Lemma bind_run {A B} (m : M A) (k : A -> M B) w :
  bind m k w = k (m w).1 (m w).2.
Proof. unfold bind. by destruct (m w). Qed.

Lemma get_file_metadata_run file_id w :
  get_file_metadata file_id w = (files w !! file_id, w).
Proof. reflexivity. Qed.

(** ** What the gates leave alone *)

Lemma unchanged_refl w : unchanged w w.
Proof. by split. Qed.

Lemma unchanged_trans w1 w2 w3 :
  unchanged w1 w2 -> unchanged w2 w3 -> unchanged w1 w3.
Proof. intros [? ?] [? ?]. split; congruence. Qed.

Lemma unchanged_tick w : unchanged w (tick w).
Proof. by split. Qed.

Lemma check_user_permission_world username file_id w :
  (check_user_permission username file_id w).2 = w.
Proof.
  unfold check_user_permission.
  rewrite bind_run, get_file_metadata_run. simpl.
  destruct (files w !! file_id) as [meta|]; [|done].
  by destruct (negb _).
Qed.

Lemma check_time_based_access_world file_id w :
  (check_time_based_access file_id w).2 =
  match files w !! file_id with Some _ => tick w | None => w end.
Proof.
  unfold check_time_based_access.
  rewrite bind_run, get_file_metadata_run. simpl.
  destruct (files w !! file_id) as [meta|]; [|done].
  rewrite bind_run. fold (tick w).
  destruct (parse_window meta) as [e|[s e]]; [done|].
  by destruct (_ && _).
Qed.

Lemma get_location_from_ip_unchanged ip_address w :
  unchanged w (get_location_from_ip ip_address w).2.
Proof.
  unfold get_location_from_ip.
  destruct (skips_lookup ip_address); [apply unchanged_refl|].
  rewrite bind_run.
  set (w' := (requests_get _ w).2).
  assert (Hw : unchanged w w') by by split.
  destruct (requests_get _ w).1 as [e|code [e|data]]; simpl; try done.
  - by destruct (code =? 200).
  - destruct (code =? 200); [|done].
    destruct (data !! "status") as [st|]; [|done].
    by destruct (String.eqb st "success").
Qed.

Lemma check_location_based_access_unchanged file_id ip_address w :
  unchanged w (check_location_based_access file_id ip_address w).2.
Proof.
  unfold check_location_based_access.
  rewrite bind_run, get_file_metadata_run. simpl.
  destruct (files w !! file_id) as [meta|]; [|apply unchanged_refl].
  rewrite bind_run.
  pose proof (get_location_from_ip_unchanged ip_address w) as Hw.
  destruct (get_location_from_ip ip_address w) as [[cc c ci r i l|r i] w'];
    simpl in *; [|done].
  by destruct (Py.contains cc _).
Qed.

(** ** The gates read only what they need *)

(** The identity gate reads the policy store only. *)
Lemma check_user_permission_reads username file_id w w' :
  files w' = files w ->
  (check_user_permission username file_id w').1 =
  (check_user_permission username file_id w).1.
Proof.
  intros Hf. unfold check_user_permission.
  rewrite !bind_run, !get_file_metadata_run. simpl. rewrite Hf.
  destruct (files w !! file_id) as [meta|]; [|done].
  by destruct (negb _).
Qed.

(** The resolver reads the network only. *)
Lemma get_location_from_ip_reads ip_address w w' :
  network w' = network w ->
  (get_location_from_ip ip_address w').1 =
  (get_location_from_ip ip_address w).1.
Proof.
  intros Hn. unfold get_location_from_ip.
  destruct (skips_lookup ip_address); [done|].
  rewrite !bind_run. simpl. rewrite Hn.
  destruct (network w _) as [e|code [e|data]]; simpl; try done.
  - by destruct (code =? 200).
  - destruct (code =? 200); [|done].
    destruct (data !! "status") as [st|]; [|done].
    by destruct (String.eqb st "success").
Qed.

(** The region gate reads the policy store and the network only. *)
Lemma check_location_based_access_reads file_id ip_address w w' :
  files w' = files w -> network w' = network w ->
  (check_location_based_access file_id ip_address w').1 =
  (check_location_based_access file_id ip_address w).1.
Proof.
  intros Hf Hn. unfold check_location_based_access.
  rewrite !bind_run, !get_file_metadata_run. simpl. rewrite Hf.
  destruct (files w !! file_id) as [meta|]; [|done].
  rewrite !bind_run.
  rewrite (get_location_from_ip_reads ip_address w w' Hn).
  destruct (get_location_from_ip ip_address w).1 as [cc c ci r i l|r i];
    [|done].
  by destruct (Py.contains cc _).
Qed.

(** ** The orchestrator *)

Lemma verify_access_unfold username file_id ip_address w :
  let g1 := (check_user_permission username file_id (tick w)).1 in
  let g2 := (check_time_based_access file_id (tick w)).1 in
  let g3 := (check_location_based_access file_id ip_address (tick w)).1 in
  let stamp := isoformat (datetime_now w).1 in
  verify_access username file_id ip_address w =
  if negb (Gate.allowed g1) then
    (Verdict.mk false username file_id ip_address stamp
       [("user_permission", g1)]
       (Some (Gate.reason g1)) (Some "user_permission") None,
     tick w)
  else if negb (Gate.allowed g2) then
    (Verdict.mk false username file_id ip_address stamp
       [("user_permission", g1); ("time_based", g2)]
       (Some (Gate.reason g2)) (Some "time_based") None,
     (check_time_based_access file_id (tick w)).2)
  else if negb (Gate.allowed g3) then
    (Verdict.mk false username file_id ip_address stamp
       [("user_permission", g1); ("time_based", g2); ("location_based", g3)]
       (Some (Gate.reason g3)) (Some "location_based") None,
     (check_location_based_access file_id ip_address
        (check_time_based_access file_id (tick w)).2).2)
  else
    (Verdict.mk true username file_id ip_address stamp
       [("user_permission", g1); ("time_based", g2); ("location_based", g3)]
       None None (Some "All Zero-Trust checks passed - Access granted!"),
     (check_location_based_access file_id ip_address
        (check_time_based_access file_id (tick w)).2).2).
Proof.
  intros g1 g2 g3 stamp. unfold verify_access.
  rewrite bind_run. fold (tick w). fold stamp.
  rewrite bind_run, check_user_permission_world. fold g1.
  destruct (negb (Gate.allowed g1)); [done|].
  rewrite bind_run. fold g2.
  destruct (negb (Gate.allowed g2)); [done|].
  rewrite bind_run.
  set (w2 := (check_time_based_access file_id (tick w)).2).
  assert (Hg3 : (check_location_based_access file_id ip_address w2).1 = g3).
  { apply check_location_based_access_reads; unfold w2;
      rewrite check_time_based_access_world;
      by destruct (files (tick w) !! file_id). }
  rewrite Hg3.
  by destruct (negb (Gate.allowed g3)).
Qed.

(** C1. [verify_access] asks the identity gate, then the time gate,
    then the region gate, and stops at the first one that denies: the
    verdict then carries that gate's reason as [denied_reason], its name
    as [failed_check], and in [checks] the results up to and including
    it, in that order; the later gates are not run (the world is the one
    the last gate that ran left behind).  The verdict is allowed exactly
    when each of the three gates, run on its own, allows; [checks] then
    holds all three results.  Below, [g1], [g2] and [g3] are the results
    of the gates run on their own, once the clock was read for the time
    stamp of the verdict. *)
Theorem verify_access_ordered_gates username file_id ip_address w :
  let g1 := (check_user_permission username file_id (tick w)).1 in
  let g2 := (check_time_based_access file_id (tick w)).1 in
  let g3 := (check_location_based_access file_id ip_address (tick w)).1 in
  let stamp := isoformat (datetime_now w).1 in
  let run := verify_access username file_id ip_address w in
  run =
    (if negb (Gate.allowed g1) then
       (Verdict.mk false username file_id ip_address stamp
          [("user_permission", g1)]
          (Some (Gate.reason g1)) (Some "user_permission") None,
        tick w)
     else if negb (Gate.allowed g2) then
       (Verdict.mk false username file_id ip_address stamp
          [("user_permission", g1); ("time_based", g2)]
          (Some (Gate.reason g2)) (Some "time_based") None,
        (check_time_based_access file_id (tick w)).2)
     else if negb (Gate.allowed g3) then
       (Verdict.mk false username file_id ip_address stamp
          [("user_permission", g1); ("time_based", g2);
           ("location_based", g3)]
          (Some (Gate.reason g3)) (Some "location_based") None,
        (check_location_based_access file_id ip_address
           (check_time_based_access file_id (tick w)).2).2)
     else
       (Verdict.mk true username file_id ip_address stamp
          [("user_permission", g1); ("time_based", g2);
           ("location_based", g3)]
          None None (Some "All Zero-Trust checks passed - Access granted!"),
        (check_location_based_access file_id ip_address
           (check_time_based_access file_id (tick w)).2).2)) /\
  (Verdict.allowed run.1 = true <->
   Gate.allowed g1 = true /\ Gate.allowed g2 = true /\
   Gate.allowed g3 = true) /\
  (Verdict.allowed run.1 = true <->
   map fst (Verdict.checks run.1) =
     ["user_permission"; "time_based"; "location_based"] /\
   Verdict.failed_check run.1 = None).
Proof.
  intros g1 g2 g3 stamp run.
  pose proof (verify_access_unfold username file_id ip_address w) as Hrun.
  cbv zeta in Hrun. fold g1 g2 g3 stamp run in Hrun.
  split; [exact Hrun|]. rewrite Hrun.
  destruct (Gate.allowed g1), (Gate.allowed g2), (Gate.allowed g3);
    simpl; split; split; intros H; try done;
    try (destruct H as (? & ? & ?); done); destruct H; done.
Qed.

(** The world [verify_access] leaves behind. *)
Lemma verify_access_unchanged username file_id ip_address w :
  unchanged w (verify_access username file_id ip_address w).2.
Proof.
  pose proof (verify_access_unfold username file_id ip_address w) as Hrun.
  cbv zeta in Hrun. rewrite Hrun.
  assert (H2 : unchanged w (check_time_based_access file_id (tick w)).2).
  { rewrite check_time_based_access_world.
    destruct (files (tick w) !! file_id); by split. }
  assert (H3 : unchanged w
            (check_location_based_access file_id ip_address
               (check_time_based_access file_id (tick w)).2).2).
  { eapply unchanged_trans; [exact H2|].
    apply check_location_based_access_unchanged. }
  destruct (negb (Gate.allowed _)); [by split|].
  destruct (negb (Gate.allowed _)); [done|].
  by destruct (negb (Gate.allowed _)).
Qed.

(** C10. The three gates and [verify_access] only read the shared
    state: whatever the arguments and the world, the policy store and
    the audit log are afterwards what they were before.  (The engine
    writes no audit entry; that is left to its caller.) *)
Theorem gates_leave_store_and_log_unchanged
    (username file_id ip_address : string) (w : World) :
  unchanged w (check_user_permission username file_id w).2 /\
  unchanged w (check_time_based_access file_id w).2 /\
  unchanged w (check_location_based_access file_id ip_address w).2 /\
  unchanged w (verify_access username file_id ip_address w).2.
Proof.
  repeat split.
  - by rewrite check_user_permission_world.
  - by rewrite check_user_permission_world.
  - rewrite check_time_based_access_world. by destruct (files w !! file_id).
  - rewrite check_time_based_access_world. by destruct (files w !! file_id).
  - apply check_location_based_access_unchanged.
  - apply check_location_based_access_unchanged.
  - apply verify_access_unchanged.
  - apply verify_access_unchanged.
Qed.

(** ** Parsing and comparing times of day *)

Lemma is_digit_val c :
  Strptime.is_digit c = true -> 0 <= Strptime.digit_val c <= 9.
Proof.
  unfold Strptime.is_digit, Strptime.digit_val. cbv zeta.
  rewrite andb_true_iff, !Nat.leb_le. lia.
Qed.

Lemma match_H_range s h r :
  (h, r) ∈ Strptime.match_H s -> 0 <= h < 24.
Proof.
  unfold Strptime.match_H.
  destruct s as [|a [|b s]].
  - by intros ?%elem_of_nil.
  - destruct (Strptime.is_digit a) eqn:Ha; [|by intros ?%elem_of_nil].
    intros [= -> ->]%list_elem_of_singleton.
    apply is_digit_val in Ha. lia.
  - rewrite !elem_of_app. intros [H|[H|H]].
    + destruct (_ && _) eqn:E in H; [|by apply elem_of_nil in H].
      apply list_elem_of_singleton in H as [= -> ->].
      apply andb_true_iff in E as [[_ Hb]%andb_true_iff Hle].
      apply is_digit_val in Hb. lia.
    + destruct (_ && _) eqn:E in H; [|by apply elem_of_nil in H].
      apply list_elem_of_singleton in H as [= -> ->].
      apply andb_true_iff in E as [[Ha Hle]%andb_true_iff Hb].
      apply is_digit_val in Ha, Hb. apply Z.leb_le in Hle. lia.
    + destruct (Strptime.is_digit a) eqn:Ha; [|by apply elem_of_nil in H].
      apply list_elem_of_singleton in H as [= -> ->].
      apply is_digit_val in Ha. lia.
Qed.

Lemma match_M_range s m r :
  Strptime.match_M s = Some (m, r) -> 0 <= m < 60.
Proof.
  unfold Strptime.match_M.
  destruct s as [|a [|b s]]; [done| |].
  - destruct (Strptime.is_digit a) eqn:Ha; [|done].
    intros [= <- <-]. apply is_digit_val in Ha. lia.
  - destruct (_ && _) eqn:E.
    + intros [= <- <-].
      apply andb_true_iff in E as [[Ha Hle]%andb_true_iff Hb].
      apply is_digit_val in Ha, Hb. apply Z.leb_le in Hle. lia.
    + destruct (Strptime.is_digit a) eqn:Ha; [|done].
      intros [= <- <-]. apply is_digit_val in Ha. lia.
Qed.

Lemma first_match_range alts h m r :
  (forall hr, hr ∈ alts -> 0 <= hr.1 < 24) ->
  Strptime.first_match alts = Some (h, m, r) ->
  0 <= h < 24 /\ 0 <= m < 60.
Proof.
  induction alts as [|hr alts IH]; [done|].
  intros Hall. simpl.
  destruct (Strptime.after_H hr) as [[[h' m'] r']|] eqn:E.
  - intros [= -> -> ->]. unfold Strptime.after_H in E.
    destruct (hr.2) as [|c rest]; [done|].
    destruct (Ascii.eqb c ":"); [|done].
    destruct (Strptime.match_M rest) as [[m0 r0]|] eqn:EM; [|done].
    injection E as <- <- <-. split.
    + apply Hall. by left.
    + by eapply match_M_range.
  - apply IH. intros hr' Hin. apply Hall. by right.
Qed.

(** A parsed window bound is a full minute of the day. *)
Lemma strptime_HM_valid s t :
  Strptime.strptime_HM s = inr t ->
  valid_time t /\ second t = 0 /\ microsecond t = 0.
Proof.
  unfold Strptime.strptime_HM.
  destruct (Strptime.first_match _) as [[[h m] r]|] eqn:E; [|done].
  destruct r; [|done]. intros [= <-].
  apply first_match_range in E as [Hh Hm].
  - unfold valid_time. simpl. lia.
  - intros [h' r'] Hin. by eapply match_H_range.
Qed.

(** On times of day the comparison of the tuples is the comparison of
    the instants. *)
Lemma time_le_micros a b :
  valid_time a -> valid_time b ->
  time_le a b = true <-> micros a <= micros b.
Proof.
  unfold valid_time, time_le, micros.
  intros (Ha1 & Ha2 & Ha3 & Ha4) (Hb1 & Hb2 & Hb3 & Hb4).
  repeat (match goal with
          | |- context [?x <? ?y] => destruct (Z.ltb_spec x y)
          end); rewrite ?Z.leb_le; split; intros; try done; try lia.
Qed.

(** ** The time gate *)

Lemma check_time_based_access_run file_id w meta :
  files w !! file_id = Some meta ->
  (check_time_based_access file_id w).1 =
  let current_time := time_of (clock w (ticks w)) in
  match parse_window meta with
  | inl e =>
      Gate.mk false ("Invalid time format in file metadata: " +:+ e)
        "time_based" None None
  | inr (start_time, end_time) =>
      Gate.mk (time_le start_time current_time && time_le current_time end_time)
        ((if time_le start_time current_time && time_le current_time end_time
          then "Access allowed between " else "Access only allowed between ")
         +:+ Meta.access_start_time meta +:+ " and " +:+
         Meta.access_end_time meta)
        "time_based" (Some (strftime_HMS current_time)) None
  end.
Proof.
  intros Hf. unfold check_time_based_access.
  rewrite bind_run, get_file_metadata_run. simpl. rewrite Hf.
  rewrite bind_run. simpl.
  destruct (parse_window meta) as [e|[s e]]; [done|].
  by destruct (_ && _).
Qed.

(** C3. For a policy whose window strings both parse, the time gate
    allows exactly the times of day from [windowStart] to [windowEnd],
    both ends included.  So, for a window that is not inverted, it allows
    at [windowStart] and at [windowEnd]; it denies one minute after
    [windowEnd]; and a window whose end lies before its start allows no
    time of day. *)
Theorem time_gate_inclusive_window w file_id meta windowStart windowEnd :
  files w !! file_id = Some meta ->
  Strptime.strptime_HM (Meta.access_start_time meta) = inr windowStart ->
  Strptime.strptime_HM (Meta.access_end_time meta) = inr windowEnd ->
  let now := time_of (clock w (ticks w)) in
  valid_time now ->
  let g := (check_time_based_access file_id w).1 in
  (Gate.allowed g = true <->
   micros windowStart <= micros now <= micros windowEnd) /\
  (micros windowStart <= micros windowEnd ->
   now = windowStart \/ now = windowEnd -> Gate.allowed g = true) /\
  (micros now = micros windowEnd + 60 * 1000000 -> Gate.allowed g = false) /\
  (micros windowEnd < micros windowStart -> Gate.allowed g = false).
Proof.
  intros Hf Hs He now Hnow g.
  assert (Hg : Gate.allowed g = true <->
               micros windowStart <= micros now <= micros windowEnd).
  { unfold g. rewrite (check_time_based_access_run _ _ _ Hf).
    unfold parse_window. rewrite Hs, He. cbv zeta. fold now. simpl.
    apply strptime_HM_valid in Hs as [Hs _], He as [He _].
    rewrite andb_true_iff, !time_le_micros by done. lia. }
  split; [exact Hg|].
  split; [|split].
  - intros Hle [->| ->]; apply Hg; lia.
  - intros Hplus. apply not_true_is_false. rewrite Hg. lia.
  - intros Hinv. apply not_true_is_false. rewrite Hg. lia.
Qed.

(** C6. For a policy of which a window string does not parse as
    [%H:%M], the time gate returns a denial whose reason is the
    invalid-time-format text followed by the message of the first
    parse that failed, with [check = "time_based"] and no other key.
    The gate is a total function to its result dictionary: the parse
    error does not leave it. *)
Theorem time_gate_denies_unparsable_window w file_id meta :
  files w !! file_id = Some meta ->
  (exists e, Strptime.strptime_HM (Meta.access_start_time meta) = inl e) \/
  (exists e, Strptime.strptime_HM (Meta.access_end_time meta) = inl e) ->
  exists e,
    (Strptime.strptime_HM (Meta.access_start_time meta) = inl e \/
     (exists s, Strptime.strptime_HM (Meta.access_start_time meta) = inr s) /\
     Strptime.strptime_HM (Meta.access_end_time meta) = inl e) /\
    (check_time_based_access file_id w).1 =
    Gate.mk false ("Invalid time format in file metadata: " +:+ e)
      "time_based" None None.
Proof.
  intros Hf Hbad.
  rewrite (check_time_based_access_run _ _ _ Hf). unfold parse_window.
  destruct (Strptime.strptime_HM (Meta.access_start_time meta))
    as [e1|s] eqn:E1.
  - exists e1. split; [by left|done].
  - destruct (Strptime.strptime_HM (Meta.access_end_time meta))
      as [e2|e] eqn:E2.
    + exists e2. split; [right; eauto|done].
    + destruct Hbad as [[? ?]|[? ?]]; done.
Qed.

(** ** The region resolver and the region gate *)

(** An origin the resolver recognises as local is answered at once:
    no request is sent and the answer does not depend on the network. *)
Lemma get_location_from_ip_local ip_address w :
  skips_lookup ip_address = true ->
  get_location_from_ip ip_address w =
  (Loc.Found "IN" "India" "Local" None ip_address true, w).
Proof. intros H. unfold get_location_from_ip. by rewrite H. Qed.

(** For any other origin one request is sent. *)
Lemma get_location_from_ip_remote ip_address w :
  skips_lookup ip_address = false ->
  requests (get_location_from_ip ip_address w).2 =
  (requests w ++ ["http://ip-api.com/json/" +:+ ip_address])%list.
Proof.
  intros H. unfold get_location_from_ip. rewrite H, bind_run. simpl.
  destruct (network w _) as [e|code [e|data]]; simpl; try done.
  - by destruct (code =? 200).
  - destruct (code =? 200); [|done].
    destruct (data !! "status") as [st|]; [|done].
    by destruct (String.eqb st "success").
Qed.

(** The resolver reports failure exactly when the origin is not local
    and the lookup failed; it then gives one of its two reasons. *)
Lemma get_location_from_ip_failure ip_address w :
  let answer := network w ("http://ip-api.com/json/" +:+ ip_address) in
  Loc.success (get_location_from_ip ip_address w).1 = false <->
  skips_lookup ip_address = false /\ lookup_failed answer = true.
Proof.
  cbv zeta. unfold get_location_from_ip.
  destruct (skips_lookup ip_address).
  { simpl. split; [done|]. by intros [? _]. }
  rewrite bind_run. simpl.
  destruct (network w _) as [e|code [e|data]]; simpl.
  - done.
  - destruct (code =? 200); simpl; done.
  - destruct (code =? 200); simpl; [|done].
    destruct (data !! "status") as [st|] eqn:E; simpl; [|done].
    case_bool_decide as Hst; simpl.
    + injection Hst as ->. simpl. split; [done|]. by intros [_ ?].
    + destruct (String.eqb_spec st "success") as [->|Hne]; done.
Qed.

Lemma check_location_based_access_run file_id ip_address w meta :
  files w !! file_id = Some meta ->
  (check_location_based_access file_id ip_address w).1 =
  match (get_location_from_ip ip_address w).1 with
  | Loc.Failed r _ => Gate.mk false r "location_based" None None
  | Loc.Found cc country _ _ _ _ as location =>
      Gate.mk (Py.contains cc (Meta.allowed_regions meta))
        (if Py.contains cc (Meta.allowed_regions meta)
         then "Access allowed from " +:+ country +:+ " (" +:+ cc +:+ ")"
         else "Access denied from " +:+ country +:+ " (" +:+ cc +:+
              "). Allowed regions: " +:+
              Py.join ", " (Meta.allowed_regions meta))
        "location_based" None (Some location)
  end.
Proof.
  intros Hf. unfold check_location_based_access.
  rewrite bind_run, get_file_metadata_run. simpl. rewrite Hf.
  rewrite bind_run.
  destruct (get_location_from_ip ip_address w).1 as [cc c ci r i l|r i];
    [|done].
  by destruct (Py.contains cc _).
Qed.

(** C2. When the resolver reports failure for the origin, the region
    gate on an existing policy denies, with the resolver's reason and
    [check = "location_based"]: a failed resolution never allows. *)
Theorem region_gate_fails_closed w file_id ip_address meta :
  files w !! file_id = Some meta ->
  Loc.success (get_location_from_ip ip_address w).1 = false ->
  exists r,
    Loc.reason (get_location_from_ip ip_address w).1 = Some r /\
    (check_location_based_access file_id ip_address w).1 =
    Gate.mk false r "location_based" None None.
Proof.
  intros Hf Hfail.
  rewrite (check_location_based_access_run _ _ _ _ Hf).
  destruct (get_location_from_ip ip_address w).1 as [cc c ci r i l|r i];
    [done|].
  by exists r.
Qed.

(** The causes of a failed resolution, and the reason each one gives. *)
Lemma get_location_from_ip_raised ip_address w e :
  skips_lookup ip_address = false ->
  network w ("http://ip-api.com/json/" +:+ ip_address) = Http.Raised e ->
  (get_location_from_ip ip_address w).1 =
  Loc.Failed ("Location lookup failed: " +:+ e) ip_address.
Proof.
  intros H Hn. unfold get_location_from_ip.
  rewrite H, bind_run. simpl. by rewrite Hn.
Qed.

Lemma get_location_from_ip_status ip_address w status_code b :
  skips_lookup ip_address = false ->
  network w ("http://ip-api.com/json/" +:+ ip_address) =
    Http.Response status_code b ->
  status_code <> 200 ->
  (get_location_from_ip ip_address w).1 =
  Loc.Failed "Failed to get location data" ip_address.
Proof.
  intros H Hn Hcode. unfold get_location_from_ip.
  rewrite H, bind_run. simpl. rewrite Hn.
  by destruct (Z.eqb_spec status_code 200).
Qed.

(** For an origin the resolver recognises as local, the region gate
    depends only on whether the fixed region is among the allowed ones. *)
Lemma check_location_based_access_local file_id ip_address w meta :
  files w !! file_id = Some meta ->
  skips_lookup ip_address = true ->
  Gate.allowed (check_location_based_access file_id ip_address w).1 =
  Py.contains "IN" (Meta.allowed_regions meta).
Proof.
  intros Hf Hl. rewrite (check_location_based_access_run _ _ _ _ Hf).
  by rewrite get_location_from_ip_local.
Qed.

(** ** Slices *)

Lemma slice_from_neg {A} (n : nat) (l : list A) :
  (0 < n)%nat -> Py.slice_from (- Z.of_nat n) l = newest n l.
Proof.
  intros Hn. unfold Py.slice_from, newest.
  destruct (Z.ltb_spec (- Z.of_nat n) 0); [|lia].
  f_equal. lia.
Qed.

Lemma length_newest {A} (n : nat) (l : list A) :
  length (newest n l) = (length l `min` n)%nat.
Proof. unfold newest. rewrite length_drop. lia. Qed.

Lemma newest_short {A} (n : nat) (l : list A) :
  (length l <= n)%nat -> newest n l = l.
Proof.
  intros H. unfold newest. by replace (length l - n)%nat with 0%nat by lia.
Qed.

Lemma newest_app_newest {A} (n : nat) (l k : list A) :
  newest n (newest n l ++ k) = newest n (l ++ k).
Proof.
  destruct (decide (length l <= n)%nat) as [Hle|Hgt].
  { by rewrite (newest_short n l). }
  unfold newest at 1 3.
  rewrite !length_app, length_newest, !drop_app, length_newest.
  unfold newest. rewrite drop_drop.
  replace (length l `min` n)%nat with n by lia.
  f_equal; f_equal; lia.
Qed.

Lemma last_newest {A} (n : nat) (l : list A) :
  (0 < n)%nat -> last (newest n l) = last l.
Proof.
  intros Hn. unfold newest.
  rewrite !last_lookup, lookup_drop, length_drop.
  destruct (decide (length l = 0)%nat) as [Hz|Hnz].
  - apply length_zero_iff_nil in Hz as ->. done.
  - f_equal. lia.
Qed.

(** ** The audit log *)

Lemma log_event_of_run e w :
  (log_event_of e w).2 =
  mk_world (files w)
    (newest 1000 (audit_logs w ++ [entry_of (clock w (ticks w)) e]))
    (clock w) (S (ticks w)) (network w) (requests w).
Proof.
  unfold log_event_of, log_event.
  rewrite !bind_run. simpl. fold (entry_of (clock w (ticks w)) e).
  set (l := (audit_logs w ++ _)%list).
  f_equal.
  destruct (Nat.ltb_spec 1000 (length l)).
  - by rewrite <- (slice_from_neg 1000) by lia.
  - by rewrite newest_short.
Qed.

Lemma log_events_run es w :
  audit_logs (log_events es w).2 =
    (if es is [] then audit_logs w
     else newest 1000
            (audit_logs w ++ entries_from (clock w) (ticks w) es)) /\
  files (log_events es w).2 = files w.
Proof.
  revert w. induction es as [|e es IH]; intros w; [done|].
  simpl. rewrite bind_run.
  destruct (IH (log_event_of e w).2) as [IHl IHf].
  rewrite IHl, IHf, log_event_of_run. simpl. split; [|done].
  destruct es as [|e' es]; simpl.
  - done.
  - rewrite newest_app_newest. by rewrite <- app_assoc.
Qed.

(** C4. [log_event] appends the new entry and then cuts the log
    down to its newest 1000 entries.  So a log that respects the cap
    (the empty one, to start with) respects it after any sequence of
    calls, and holds, oldest first, the newest 1000 of its old entries
    followed by the new ones; after [1000 + k] calls it holds exactly
    the entries of the last 1000 calls, in the order of the calls. *)
Theorem log_event_keeps_newest_1000 (w : World) (es : list Event.t) :
  (length (audit_logs w) <= 1000)%nat ->
  let after := audit_logs (log_events es w).2 in
  let built := entries_from (clock w) (ticks w) es in
  after = newest 1000 (audit_logs w ++ built) /\
  (length after <= 1000)%nat /\
  (forall e, last (audit_logs (log_event_of e w).2) =
             Some (entry_of (clock w (ticks w)) e)) /\
  (forall k, length es = (1000 + k)%nat ->
             length after = 1000%nat /\ after = drop k built).
Proof.
  intros Hcap after built.
  assert (Hlen : length built = length es).
  { unfold built. generalize (ticks w).
    induction es as [|e es IH]; intros n; simpl; [done|]. by rewrite IH. }
  assert (Hafter : after = newest 1000 (audit_logs w ++ built)).
  { unfold after, built. destruct (log_events_run es w) as [-> _].
    destruct es; [|done]. simpl. rewrite app_nil_r.
    by rewrite newest_short. }
  split; [done|]. split; [|split].
  - rewrite Hafter, length_newest. lia.
  - intros e. rewrite log_event_of_run. simpl.
    rewrite last_newest by lia. apply last_snoc.
  - intros k Hk.
    assert (Hdrop : after = drop k built).
    { rewrite Hafter. unfold newest. rewrite length_app, Hlen, Hk.
      replace (length (audit_logs w) + (1000 + k) - 1000)%nat
        with (length (audit_logs w) + k)%nat by lia.
      apply drop_app_add. }
    split; [|done]. rewrite Hdrop, length_drop. lia.
Qed.

(** ** Queries of the audit log *)

Lemma filter_all {A} (P : A -> Prop) `{!forall x, Decision (P x)} (l : list A) :
  (forall x, P x) -> filter P l = l.
Proof.
  intros HP. induction l as [|x l IH]; [done|].
  by rewrite filter_cons_True, IH.
Qed.

(** The list [get_audit_logs] slices: the entries that pass the filters
    in force, oldest first. *)
Lemma get_audit_logs_run username file_id limit w :
  (get_audit_logs username file_id limit w).1 =
  Py.reversed (Py.slice_from (- limit)
                 (filter (passes username file_id) (audit_logs w))).
Proof.
  unfold get_audit_logs. rewrite bind_run. simpl. do 2 f_equal.
  destruct (Py.truthy username) eqn:Eu, (Py.truthy file_id) eqn:Ef.
  - rewrite list_filter_filter. apply list_filter_iff.
    intros log. unfold passes. rewrite Eu, Ef. intuition congruence.
  - apply list_filter_iff.
    intros log. unfold passes. rewrite Eu, Ef. intuition congruence.
  - apply list_filter_iff.
    intros log. unfold passes. rewrite Eu, Ef. intuition congruence.
  - symmetry. apply filter_all.
    intros log. unfold passes. rewrite Eu, Ef. intuition congruence.
Qed.

(** With a positive limit the answer is the newest [limit] matching
    entries, newest first: at most [limit] of them, each passing the
    filters. *)
Lemma get_audit_logs_positive_limit username file_id limit w :
  0 < limit ->
  let result := (get_audit_logs username file_id limit w).1 in
  result = reverse (newest (Z.to_nat limit)
                      (filter (passes username file_id) (audit_logs w))) /\
  (Z.of_nat (length result) <= limit) /\
  Forall (passes username file_id) result.
Proof.
  intros Hpos result.
  assert (Hres : result =
            reverse (newest (Z.to_nat limit)
                       (filter (passes username file_id) (audit_logs w)))).
  { unfold result. rewrite get_audit_logs_run. unfold Py.reversed.
    rewrite <- (slice_from_neg (Z.to_nat limit)) by lia.
    by rewrite Z2Nat.id by lia. }
  split; [done|]. rewrite Hres. split.
  - rewrite length_reverse, length_newest. lia.
  - apply Forall_reverse. unfold newest. apply Forall_drop.
    apply Forall_forall. by intros x [? _]%list_elem_of_filter.
Qed.

(** With the limit 0 the answer is every matching entry. *)
Lemma get_audit_logs_limit_0 username file_id w :
  (get_audit_logs username file_id 0 w).1 =
  reverse (filter (passes username file_id) (audit_logs w)).
Proof. by rewrite get_audit_logs_run. Qed.

(** C7, at the limit 0.  On a log of two entries, a query with no
    filter and [limit = 0] returns both entries (newest first), which
    is more than the limit; with [limit = -1] it returns one. *)
Theorem get_audit_logs_limit_zero_returns_all :
  length (audit_logs two_logins) = 2%nat /\
  (get_audit_logs None None 0 two_logins).1 =
    reverse (audit_logs two_logins) /\
  length (get_audit_logs None None 0 two_logins).1 = 2%nat /\
  length (get_audit_logs None None (-1) two_logins).1 = 1%nat.
Proof. vm_compute. done. Qed.

(** ** A missing policy *)

Lemma gates_on_missing_policy username file_id ip_address w :
  files w !! file_id = None ->
  check_user_permission username file_id w =
    (Gate.mk false "File not found" "file_exists" None None, w) /\
  check_time_based_access file_id w =
    (Gate.mk false "File not found" "time_based" None None, w) /\
  check_location_based_access file_id ip_address w =
    (Gate.mk false "File not found" "location_based" None None, w).
Proof.
  intros Hf.
  unfold check_user_permission, check_time_based_access,
    check_location_based_access.
  rewrite !bind_run, !get_file_metadata_run. simpl. by rewrite Hf.
Qed.

(** C5, for a file id without policy.  The identity gate answers
    with [check = "file_exists"], not with its own name
    ["user_permission"] as the time and the region gate do with theirs;
    the orchestrator all the same names ["user_permission"] as the
    failed check. *)
Theorem check_user_permission_missing_policy_check :
  files alice_world !! "missing" = None /\
  (check_user_permission "alice" "missing" alice_world).1 =
    Gate.mk false "File not found" "file_exists" None None /\
  (check_time_based_access "missing" alice_world).1 =
    Gate.mk false "File not found" "time_based" None None /\
  (check_location_based_access "missing" "127.0.0.1" alice_world).1 =
    Gate.mk false "File not found" "location_based" None None /\
  Verdict.failed_check
    (verify_access "alice" "missing" "127.0.0.1" alice_world).1 =
    Some "user_permission".
Proof. vm_compute. done. Qed.

(** ** Local origins *)

(** C8, for the private address 10.0.0.1 and the loopback address
    127.0.0.2.  The resolver does not recognise them: it sends a
    request for each, and its answer is the one of the lookup service,
    a failure when the service is out of reach and France when the
    service says so. *)
Theorem get_location_from_ip_private_range_looked_up :
  skips_lookup "10.0.0.1" = false /\
  skips_lookup "127.0.0.2" = false /\
  (get_location_from_ip "10.0.0.1" (offline_world noon)).1 =
    Loc.Failed "Location lookup failed: Read timed out. (read timeout=3)"
      "10.0.0.1" /\
  requests (get_location_from_ip "10.0.0.1" (offline_world noon)).2 =
    ["http://ip-api.com/json/10.0.0.1"] /\
  (get_location_from_ip "10.0.0.1"
     (with_network france (offline_world noon))).1 =
    Loc.Found "FR" "France" "Unknown" (Some "Unknown") "10.0.0.1" false /\
  Gate.allowed
    (check_location_based_access "f" "10.0.0.1"
       (with_files (<["f" := Meta.set_allowed_regions ["IN"] alice_policy]> ∅)
          (offline_world noon))).1 = false.
Proof. vm_compute. done. Qed.

(** ** The owner and the access list *)

(** Right after [save_file_metadata] the access list is the owner. *)
Lemma save_file_metadata_owner_allowed file_id owner original_filename
    metadata w :
  exists m,
    files (save_file_metadata file_id owner original_filename metadata w).2
      !! file_id = Some m /\
    Meta.owner m = owner /\ Meta.allowed_users m = [owner] /\
    Meta.owner m ∈ Meta.allowed_users m.
Proof.
  unfold save_file_metadata. rewrite !bind_run. simpl.
  eexists. split; [apply lookup_insert_eq|]. simpl.
  repeat split. by left.
Qed.

(** [update_file_access] installs the list it is given as it is. *)
Lemma update_file_access_replaces file_id us ts rs w m :
  files w !! file_id = Some m ->
  exists m',
    files (update_file_access file_id (Some us) ts rs w).2 !! file_id
      = Some m' /\
    Meta.owner m' = Meta.owner m /\ Meta.allowed_users m' = us.
Proof.
  intros Hf. unfold update_file_access. rewrite bind_run. simpl.
  rewrite bool_decide_eq_true_2 by (rewrite Hf; eauto). simpl.
  destruct ts as [t|], rs as [r|];
    rewrite ?lookup_alter_eq, Hf; simpl; eauto.
Qed.

(** C9, for a policy of alice whose access list the owner replaces
    by bob alone.  After [save_file_metadata] the owner is on the list;
    after [update_file_access] with the list [["bob"]] the owner is
    still alice and the list is [["bob"]]: the owner is no longer on it,
    and the identity gate turns the owner away. *)
Theorem update_file_access_can_drop_owner :
  (Meta.allowed_users <$> files uploaded !! "f") = Some ["alice"] /\
  (Meta.owner <$> files shared_with_bob !! "f") = Some "alice" /\
  (Meta.allowed_users <$> files shared_with_bob !! "f") = Some ["bob"] /\
  Gate.allowed (check_user_permission "alice" "f" shared_with_bob).1 = false.
Proof. vm_compute. done. Qed.

(** * Instances *)

Lemma region_gate_fails_closed_witness :
  exists r,
    Loc.reason (get_location_from_ip "203.0.113.5" alice_world).1 = Some r /\
    (check_location_based_access "f" "203.0.113.5" alice_world).1 =
    Gate.mk false r "location_based" None None.
Proof.
  apply (region_gate_fails_closed alice_world "f" "203.0.113.5" alice_policy);
    reflexivity.
Defined.

Lemma time_gate_inclusive_window_witness :
  let w := alice_world_at (mk_time 18 0 0 0) in
  let now := mk_time 18 0 0 0 in
  let g := (check_time_based_access "f" w).1 in
  (Gate.allowed g = true <->
   micros (mk_time 9 0 0 0) <= micros now <= micros (mk_time 18 0 0 0)) /\
  (micros (mk_time 9 0 0 0) <= micros (mk_time 18 0 0 0) ->
   now = mk_time 9 0 0 0 \/ now = mk_time 18 0 0 0 ->
   Gate.allowed g = true) /\
  (micros now = micros (mk_time 18 0 0 0) + 60 * 1000000 ->
   Gate.allowed g = false) /\
  (micros (mk_time 18 0 0 0) < micros (mk_time 9 0 0 0) ->
   Gate.allowed g = false).
Proof.
  apply (time_gate_inclusive_window (alice_world_at (mk_time 18 0 0 0)) "f"
           alice_policy (mk_time 9 0 0 0) (mk_time 18 0 0 0));
    [reflexivity | reflexivity | reflexivity |].
  unfold valid_time. simpl. lia.
Defined.

Lemma log_event_keeps_newest_1000_witness :
  let w := offline_world noon in
  let es := [login "alice"; login "bob"] in
  let after := audit_logs (log_events es w).2 in
  let built := entries_from (clock w) (ticks w) es in
  after = newest 1000 (audit_logs w ++ built) /\
  (length after <= 1000)%nat /\
  (forall e, last (audit_logs (log_event_of e w).2) =
             Some (entry_of (clock w (ticks w)) e)) /\
  (forall k, length es = (1000 + k)%nat ->
             length after = 1000%nat /\ after = drop k built).
Proof.
  apply (log_event_keeps_newest_1000 (offline_world noon)
           [login "alice"; login "bob"]).
  simpl. lia.
Defined.

Lemma time_gate_denies_unparsable_window_witness :
  exists e,
    (Strptime.strptime_HM "9am" = inl e \/
     (exists s, Strptime.strptime_HM "9am" = inr s) /\
     Strptime.strptime_HM "18:00" = inl e) /\
    (check_time_based_access "f" broken_window_world).1 =
    Gate.mk false ("Invalid time format in file metadata: " +:+ e)
      "time_based" None None.
Proof.
  apply (time_gate_denies_unparsable_window broken_window_world "f"
           (Meta.set_access_start_time "9am" alice_policy));
    [reflexivity|].
  left. eexists. reflexivity.
Defined.

(** * Examples *)

Example strptime_0900 : Strptime.strptime_HM "09:00" = inr (mk_time 9 0 0 0).
Proof. reflexivity. Qed.

Example strptime_2359 : Strptime.strptime_HM "23:59" = inr (mk_time 23 59 0 0).
Proof. reflexivity. Qed.

Example strptime_short : Strptime.strptime_HM "7:5" = inr (mk_time 7 5 0 0).
Proof. reflexivity. Qed.

Example strptime_2500 :
  Strptime.strptime_HM "25:00" =
  inl "time data '25:00' does not match format '%H:%M'".
Proof. reflexivity. Qed.

Example strptime_seconds :
  Strptime.strptime_HM "09:00:30" = inl "unconverted data remains: :30".
Proof. reflexivity. Qed.

Example strptime_minute60 :
  Strptime.strptime_HM "09:60" = inl "unconverted data remains: 0".
Proof. reflexivity. Qed.

Example isoformat_micro :
  isoformat (mk_datetime 2024 3 7 (mk_time 9 5 0 120)) =
  "2024-03-07T09:05:00.000120".
Proof. reflexivity. Qed.

(** The time gate around the end of the window 09:00 to 18:00. *)
Example time_gate_at_the_bounds :
  Gate.allowed (check_time_based_access "f"
                  (alice_world_at (mk_time 9 0 0 0))).1 = true /\
  Gate.allowed (check_time_based_access "f"
                  (alice_world_at (mk_time 18 0 0 0))).1 = true /\
  Gate.allowed (check_time_based_access "f"
                  (alice_world_at (mk_time 18 1 0 0))).1 = false /\
  Gate.allowed (check_time_based_access "f"
                  (alice_world_at (mk_time 8 59 59 999999))).1 = false /\
  Gate.allowed (check_time_based_access "f"
                  (alice_world_at (mk_time 18 0 0 1))).1 = false.
Proof. vm_compute. done. Qed.

(** An unknown identity is turned away by the first gate, and only that
    gate is recorded, also outside the window. *)
Example first_gate_wins :
  let v := (verify_access "bob" "f" "127.0.0.1"
              (alice_world_at (mk_time 23 0 0 0))).1 in
  Verdict.allowed v = false /\
  Verdict.failed_check v = Some "user_permission" /\
  map fst (Verdict.checks v) = ["user_permission"].
Proof. vm_compute. done. Qed.

(** An origin resolved to France is turned away by the region gate. *)
Example france_denied :
  let v := (verify_access "alice" "f" "203.0.113.5"
              (with_network france alice_world)).1 in
  Verdict.allowed v = false /\
  Verdict.failed_check v = Some "location_based".
Proof. vm_compute. done. Qed.

(** After 1001 calls the log holds 1000 entries and the first call is
    gone. *)
Example busy_day_log :
  let log := audit_logs (log_events busy_day (offline_world noon)).2 in
  length log = 1000%nat /\
  Log.username <$> head log = Some "later" /\
  Forall (fun entry => Log.username entry = "later") log.
Proof.
  cbv zeta. split; [by vm_compute|]. split; [by vm_compute|].
  eapply (bool_decide_unpack _). by vm_compute.
Qed.

(** * Further properties of the store, the audit trail and the helpers *)

(** ** Policies: saving, updating, deleting, listing *)

Lemma check_user_permission_run username file_id w :
  (check_user_permission username file_id w).1 =
  match files w !! file_id with
  | None => Gate.mk false "File not found" "file_exists" None None
  | Some m =>
      if Py.contains username (Meta.allowed_users m)
      then Gate.mk true "User has permission" "user_permission" None None
      else Gate.mk false
             ("User " +:+ username +:+ " not authorized to access this file")
             "user_permission" None None
  end.
Proof.
  unfold check_user_permission.
  rewrite bind_run, get_file_metadata_run. simpl.
  destruct (files w !! file_id) as [m|]; [|done].
  by destruct (Py.contains _ _).
Qed.

Lemma check_user_permission_allowed username file_id w :
  Gate.allowed (check_user_permission username file_id w).1 =
  match files w !! file_id with
  | Some m => Py.contains username (Meta.allowed_users m)
  | None => false
  end.
Proof.
  rewrite check_user_permission_run.
  destruct (files w !! file_id) as [m|]; [|done].
  by destruct (Py.contains _ _).
Qed.

Lemma save_file_metadata_run file_id owner original_filename metadata w :
  save_file_metadata file_id owner original_filename metadata w =
  (Res.mk true "File metadata saved",
   mk_world
     (<[file_id :=
          Meta.mk owner original_filename (isoformat (clock w (ticks w)))
            [owner]
            (default "09:00" (Upload.access_start_time metadata))
            (default "18:00" (Upload.access_end_time metadata))
            (default ["IN"; "US"; "GB"] (Upload.allowed_regions metadata))
            (default ∅ (Upload.encryption_metadata metadata))]> (files w))
     (audit_logs w) (clock w) (S (ticks w)) (network w) (requests w)).
Proof. reflexivity. Qed.

(** X1. Whatever was stored under the file id before, also a policy
    shared with other users, right after [save_file_metadata] the
    identity gate admits the owner and nobody else. *)
Theorem save_file_metadata_admits_owner_only
    file_id owner original_filename metadata username w :
  Gate.allowed
    (check_user_permission username file_id
       (save_file_metadata file_id owner original_filename metadata w).2).1 =
  bool_decide (username = owner).
Proof.
  rewrite check_user_permission_allowed, save_file_metadata_run. simpl.
  rewrite lookup_insert_eq. simpl. unfold Py.contains.
  apply bool_decide_ext, list_elem_of_singleton.
Qed.

(** X2. [get_file_metadata] after [save_file_metadata] returns, for the
    saved id, the policy with the given owner and name, the access list
    [[owner]], and each field of [metadata] or its default (09:00, 18:00,
    IN/US/GB, no encryption metadata); for any other id it returns what
    it returned before.  The audit log is not written. *)
Theorem save_file_metadata_then_get
    file_id owner original_filename metadata other w :
  let saved := save_file_metadata file_id owner original_filename metadata w in
  saved.1 = Res.mk true "File metadata saved" /\
  (get_file_metadata other saved.2).1 =
    (if decide (other = file_id)
     then Some (Meta.mk owner original_filename
                  (isoformat (clock w (ticks w))) [owner]
                  (default "09:00" (Upload.access_start_time metadata))
                  (default "18:00" (Upload.access_end_time metadata))
                  (default ["IN"; "US"; "GB"]
                     (Upload.allowed_regions metadata))
                  (default ∅ (Upload.encryption_metadata metadata)))
     else (get_file_metadata other w).1) /\
  audit_logs saved.2 = audit_logs w.
Proof.
  cbv zeta. rewrite save_file_metadata_run, !get_file_metadata_run. simpl.
  split; [done|]. split; [|done].
  destruct (decide (other = file_id)) as [->|Hne].
  - by rewrite lookup_insert_eq.
  - by rewrite lookup_insert_ne.
Qed.

(** What [update_file_access] stores for a policy [m]. *)
Lemma update_file_access_run file_id us ts rs w m :
  files w !! file_id = Some m ->
  update_file_access file_id us ts rs w =
  (Res.mk true "Access control updated",
   mk_world
     (<[file_id :=
          Meta.mk (Meta.owner m) (Meta.original_filename m)
            (Meta.uploaded_at m)
            (default (Meta.allowed_users m) us)
            (from_option Window.start (Meta.access_start_time m) ts)
            (from_option Window.end_ (Meta.access_end_time m) ts)
            (default (Meta.allowed_regions m) rs)
            (Meta.encryption_metadata m)]> (files w))
     (audit_logs w) (clock w) (ticks w) (network w) (requests w)).
Proof.
  intros Hf. unfold update_file_access. rewrite bind_run. simpl.
  rewrite bool_decide_eq_true_2 by (rewrite Hf; eauto). simpl.
  unfold write_files, bind, ret. simpl. do 2 f_equal.
  apply map_eq. intros k.
  destruct (decide (k = file_id)) as [->|Hne].
  - rewrite lookup_insert_eq.
    destruct us as [u|], ts as [t|], rs as [r|];
      rewrite ?lookup_alter_eq, Hf; simpl; by destruct m.
  - rewrite lookup_insert_ne by done.
    destruct us as [u|], ts as [t|], rs as [r|];
      by rewrite ?lookup_alter_ne by done.
Qed.

(** X3. [update_file_access] for a file id without policy answers
    "File not found" and changes nothing at all. *)
Theorem update_file_access_missing_file file_id us ts rs w :
  files w !! file_id = None ->
  update_file_access file_id us ts rs w = (Res.mk false "File not found", w).
Proof.
  intros Hf. unfold update_file_access. rewrite bind_run. simpl.
  rewrite bool_decide_eq_false_2; [done|].
  rewrite Hf. by intros [? ?].
Qed.

(** X4. [update_file_access] on an existing policy succeeds and
    replaces exactly the parts it is given: the access list, the two
    window strings together, the regions.  An argument left out keeps
    the old value; the owner, the file name, the upload time and the
    encryption metadata never change; no other policy and no audit
    entry is touched. *)
Theorem update_file_access_changes_given_fields file_id us ts rs w m other :
  files w !! file_id = Some m ->
  let updated := update_file_access file_id us ts rs w in
  updated.1 = Res.mk true "Access control updated" /\
  files updated.2 !! other =
    (if decide (other = file_id)
     then Some (Meta.mk (Meta.owner m) (Meta.original_filename m)
                  (Meta.uploaded_at m)
                  (default (Meta.allowed_users m) us)
                  (from_option Window.start (Meta.access_start_time m) ts)
                  (from_option Window.end_ (Meta.access_end_time m) ts)
                  (default (Meta.allowed_regions m) rs)
                  (Meta.encryption_metadata m))
     else files w !! other) /\
  audit_logs updated.2 = audit_logs w.
Proof.
  intros Hf. cbv zeta. rewrite (update_file_access_run _ _ _ _ _ _ Hf). simpl.
  split; [done|]. split; [|done].
  destruct (decide (other = file_id)) as [->|Hne].
  - by rewrite lookup_insert_eq.
  - by rewrite lookup_insert_ne.
Qed.

(** X5. A new access list is in force at the next check: after
    [update_file_access] with the list [us] the identity gate admits
    exactly the members of [us], so a user added is admitted and a user
    left out is turned away. *)
Theorem update_file_access_then_identity_gate file_id us ts rs w m username :
  files w !! file_id = Some m ->
  Gate.allowed
    (check_user_permission username file_id
       (update_file_access file_id (Some us) ts rs w).2).1 =
  Py.contains username us.
Proof.
  intros Hf. rewrite check_user_permission_allowed.
  rewrite (update_file_access_run _ _ _ _ _ _ Hf). simpl.
  by rewrite lookup_insert_eq.
Qed.

(** X6. [delete_file_metadata] answers "File not found" for an id
    without policy and "File metadata deleted" otherwise; afterwards the
    id has no policy, every other policy is as before, and the audit log
    is not written. *)
Theorem delete_file_metadata_removes_policy file_id other w :
  let deleted := delete_file_metadata file_id w in
  deleted.1 =
    (if bool_decide (is_Some (files w !! file_id))
     then Res.mk true "File metadata deleted"
     else Res.mk false "File not found") /\
  files deleted.2 !! other =
    (if decide (other = file_id) then None else files w !! other) /\
  audit_logs deleted.2 = audit_logs w.
Proof.
  cbv zeta. unfold delete_file_metadata. rewrite bind_run. simpl.
  case_bool_decide as Hin; simpl.
  - split; [done|]. split; [|done].
    destruct (decide (other = file_id)) as [->|Hne].
    + apply lookup_delete_eq.
    + by apply lookup_delete_ne.
  - split; [done|]. split; [|done].
    destruct (decide (other = file_id)) as [->|Hne]; [|done].
    destruct (files w !! file_id) eqn:E; [|done].
    exfalso. apply Hin. eauto.
Qed.

(** X7. Once a policy is deleted, [verify_access] denies everybody,
    the former owner included, at the first gate: the reason is "File
    not found", the failed check "user_permission", only that gate is
    recorded, and no lookup request is sent. *)
Theorem delete_file_metadata_then_verify_access file_id username ip_address w :
  let w' := (delete_file_metadata file_id w).2 in
  let verdict := (verify_access username file_id ip_address w').1 in
  Verdict.allowed verdict = false /\
  Verdict.denied_reason verdict = Some "File not found" /\
  Verdict.failed_check verdict = Some "user_permission" /\
  map fst (Verdict.checks verdict) = ["user_permission"] /\
  requests (verify_access username file_id ip_address w').2 = requests w.
Proof.
  intros w' verdict.
  assert (Hgone : files (tick w') !! file_id = None).
  { unfold w', delete_file_metadata. rewrite bind_run. simpl.
    case_bool_decide as Hin; simpl.
    - apply lookup_delete_eq.
    - destruct (files w !! file_id) eqn:E; [|done].
      exfalso. apply Hin. eauto. }
  assert (Hreq : requests w' = requests w).
  { unfold w', delete_file_metadata. rewrite bind_run. simpl.
    by case_bool_decide. }
  pose proof (verify_access_unfold username file_id ip_address w') as Hrun.
  cbv zeta in Hrun. rewrite check_user_permission_run, Hgone in Hrun.
  simpl in Hrun. unfold verdict. rewrite Hrun. simpl. by rewrite <- Hreq.
Qed.

(** X8. The listing of accessible files agrees with the identity
    gate: a file id is listed for a user exactly when
    [check_user_permission] admits that user for it, and what is listed
    is the stored policy. *)
Theorem list_accessible_files_agrees_with_gate username file_id w :
  bool_decide (is_Some ((list_accessible_files username w).1 !! file_id)) =
    Gate.allowed (check_user_permission username file_id w).1 /\
  (list_accessible_files username w).1 ⊆ files w /\
  (list_accessible_files username w).2 = w.
Proof.
  rewrite check_user_permission_allowed.
  unfold list_accessible_files. rewrite bind_run. simpl.
  split; [|split; [apply map_filter_subseteq|done]].
  destruct (files w !! file_id) as [m|] eqn:Hf.
  - unfold Py.contains. apply bool_decide_ext.
    split.
    + intros [m' [Hm' Hin]%map_lookup_filter_Some]. simpl in Hin. congruence.
    + intros Hin. exists m. by apply map_lookup_filter_Some.
  - apply bool_decide_eq_false_2.
    intros [m' [Hm' _]%map_lookup_filter_Some]. congruence.
Qed.

(** X9. Right after [save_file_metadata] the file is in the list of
    owned files and in the list of accessible files of its owner, and in
    neither list of anybody else. *)
Theorem save_file_metadata_then_listings
    file_id owner original_filename metadata username w :
  let w' := (save_file_metadata file_id owner original_filename metadata w).2 in
  bool_decide (is_Some ((list_files_by_owner username w').1 !! file_id)) =
    bool_decide (username = owner) /\
  bool_decide (is_Some ((list_accessible_files username w').1 !! file_id)) =
    bool_decide (username = owner).
Proof.
  cbv zeta. rewrite save_file_metadata_run. simpl.
  unfold list_files_by_owner, list_accessible_files, bind, read_files, ret.
  simpl. split; apply bool_decide_ext.
  - split.
    + intros [m' [Hm' Ho]%map_lookup_filter_Some].
      rewrite lookup_insert_eq in Hm'. injection Hm' as <-. by simpl in Ho.
    + intros ->. eexists. apply map_lookup_filter_Some.
      split; [apply lookup_insert_eq|done].
  - split.
    + intros [m' [Hm' Ho]%map_lookup_filter_Some].
      rewrite lookup_insert_eq in Hm'. injection Hm' as <-. simpl in Ho.
      by apply list_elem_of_singleton in Ho.
    + intros ->. eexists. apply map_lookup_filter_Some.
      split; [apply lookup_insert_eq|]. simpl. by left.
Qed.

(** ** The audit trail: writing, then reading *)

Lemma audit_logs_snoc e w :
  exists older,
    audit_logs (log_event_of e w).2 =
    (older ++ [entry_of (clock w (ticks w)) e])%list.
Proof.
  apply last_Some. rewrite log_event_of_run. simpl.
  rewrite last_newest by lia. apply last_snoc.
Qed.

(** X10. An event just logged heads the next query: after
    [log_event], [get_audit_logs] with a positive limit and with filters
    the new entry passes (in particular with none) returns the new entry
    first. *)
Theorem log_event_then_get_audit_logs e username file_id limit w :
  0 < limit ->
  passes username file_id (entry_of (clock w (ticks w)) e) ->
  head (get_audit_logs username file_id limit (log_event_of e w).2).1 =
  Some (entry_of (clock w (ticks w)) e).
Proof.
  intros Hpos Hpass. rewrite get_audit_logs_run. unfold Py.reversed.
  rewrite head_reverse.
  replace (- limit) with (- Z.of_nat (Z.to_nat limit)) by lia.
  rewrite slice_from_neg, last_newest by lia.
  destruct (audit_logs_snoc e w) as [older ->].
  rewrite filter_app, filter_cons_True, filter_nil by done.
  apply last_snoc.
Qed.

(** X11. With a limit that is zero or negative, [get_audit_logs] does
    not cap the answer: it returns, newest first, every matching entry
    but the [-limit] oldest ones. *)
Theorem get_audit_logs_nonpositive_limit username file_id limit w :
  limit <= 0 ->
  (get_audit_logs username file_id limit w).1 =
  reverse (drop (Z.to_nat (- limit))
             (filter (passes username file_id) (audit_logs w))).
Proof.
  intros Hle. rewrite get_audit_logs_run. unfold Py.reversed, Py.slice_from.
  by destruct (Z.ltb_spec (- limit) 0); [lia|].
Qed.

(** X12. The activity of a named user, asked with a positive limit,
    holds at most [limit] entries, all of them of that user, and
    [total_events] is their number; likewise for a named file. *)
Theorem activity_queries_respect_name_and_limit name limit w :
  name <> "" -> 0 < limit ->
  let by_user := (get_user_activity name limit w).1 in
  let by_file := (get_file_activity name limit w).1 in
  Activity.total_events by_user = Z.of_nat (length (Activity.logs by_user)) /\
  Activity.total_events by_user <= limit /\
  Forall (fun log => Log.username log = name) (Activity.logs by_user) /\
  Activity.total_events by_file = Z.of_nat (length (Activity.logs by_file)) /\
  Activity.total_events by_file <= limit /\
  Forall (fun log => Log.file_id log = Some name) (Activity.logs by_file).
Proof.
  intros Hname Hpos by_user by_file.
  assert (Ht : Py.truthy (Some name) = true).
  { simpl. by destruct (String.eqb_spec name ""). }
  destruct (get_audit_logs_positive_limit (Some name) None limit w Hpos)
    as (_ & Hlen_u & Hall_u).
  destruct (get_audit_logs_positive_limit None (Some name) limit w Hpos)
    as (_ & Hlen_f & Hall_f).
  unfold by_user, by_file, get_user_activity, get_file_activity.
  rewrite !bind_run. simpl. repeat split; try done.
  - eapply Forall_impl; [exact Hall_u|]. intros log [Hu _].
    specialize (Hu Ht). congruence.
  - eapply Forall_impl; [exact Hall_f|]. intros log [_ Hf].
    by apply Hf.
Qed.

(** ** The security summary *)

Lemma count_of_cons (P : Log.t -> Prop) `{!forall x, Decision (P x)} x l :
  count_of P (x :: l) = (if decide (P x) then 1 else 0) + count_of P l.
Proof.
  unfold count_of. rewrite filter_cons.
  destruct (decide (P x)); simpl; lia.
Qed.

Lemma count_of_nil (P : Log.t -> Prop) `{!forall x, Decision (P x)} :
  count_of P [] = 0.
Proof. done. Qed.

Lemma count_of_reverse (P : Log.t -> Prop) `{!forall x, Decision (P x)} l :
  count_of P (reverse l) = count_of P l.
Proof. unfold count_of. by rewrite filter_reverse, length_reverse. Qed.

Lemma count_of_snoc (P : Log.t -> Prop) `{!forall x, Decision (P x)} l x :
  count_of P (l ++ [x]) = count_of P l + (if decide (P x) then 1 else 0).
Proof.
  unfold count_of. rewrite filter_app, length_app, filter_cons, filter_nil.
  destruct (decide (P x)); simpl; lia.
Qed.

Lemma count_of_nonneg (P : Log.t -> Prop) `{!forall x, Decision (P x)} l :
  0 <= count_of P l.
Proof. unfold count_of. lia. Qed.

(** The counters after one more entry. *)
Lemma summary_step_counters acc x :
  let s := summary_step acc x in
  Summary.total_events s = Summary.total_events acc /\
  Summary.successful_events s =
    Summary.successful_events acc +
    (if decide (Log.success x = true) then 1 else 0) /\
  Summary.failed_events s =
    Summary.failed_events acc +
    (if decide (Log.success x = false) then 1 else 0) /\
  Summary.access_denied s =
    Summary.access_denied acc +
    (if decide (Log.event_type x = "ACCESS_DENIED") then 1 else 0) /\
  Summary.uploads s =
    Summary.uploads acc +
    (if decide (Log.event_type x = "FILE_UPLOAD") then 1 else 0) /\
  Summary.downloads s =
    Summary.downloads acc +
    (if decide (Log.event_type x = "FILE_DOWNLOAD") then 1 else 0) /\
  Summary.login_attempts s =
    Summary.login_attempts acc +
    (if decide (Log.event_type x = "LOGIN_SUCCESS") then 1 else 0) +
    (if decide (Log.event_type x = "LOGIN_FAILED") then 1 else 0) /\
  Summary.failed_logins s =
    Summary.failed_logins acc +
    (if decide (Log.event_type x = "LOGIN_FAILED") then 1 else 0) /\
  Summary.event_types s =
    dict_set (Log.event_type x)
      (default 0 (dict_get (Log.event_type x) (Summary.event_types acc)) + 1)
      (Summary.event_types acc).
Proof.
  cbv zeta. unfold summary_step, Py.contains.
  destruct (Log.success x);
    destruct (String.eqb_spec (Log.event_type x) "ACCESS_DENIED") as [->|H1];
    [simpl; repeat split; lia| |simpl; repeat split; lia|].
  all: destruct (String.eqb_spec (Log.event_type x) "FILE_UPLOAD") as [->|H2];
    [simpl; repeat split; lia|].
  all: destruct (String.eqb_spec (Log.event_type x) "FILE_DOWNLOAD")
         as [->|H3]; [simpl; repeat split; lia|].
  all: case_bool_decide as H4.
  all: destruct (String.eqb_spec (Log.event_type x) "LOGIN_FAILED")
         as [H5|H5].
  all: try (rewrite H5; simpl; repeat split; lia).
  all: simpl; repeat split; repeat case_decide; try done; try lia.
  all: try (exfalso; apply H4; set_solver).
  all: exfalso;
    repeat (apply elem_of_cons in H4 as [H4|H4]; [congruence|]);
    by apply elem_of_nil in H4.
Qed.

Lemma dict_get_set {V} (k k' : string) (v : V) d :
  dict_get k (dict_set k' v d) =
  if String.eqb k k' then Some v else dict_get k d.
Proof.
  induction d as [|[k0 v0] d IH]; simpl.
  - by destruct (String.eqb k k').
  - destruct (String.eqb_spec k' k0) as [->|Hne]; simpl.
    + by destruct (String.eqb k k0).
    + rewrite IH.
      destruct (String.eqb_spec k k0) as [->|Hne0]; [|done].
      destruct (String.eqb_spec k0 k'); [congruence|done].
Qed.

Lemma dict_set_keys {V} (k : string) (v : V) d :
  NoDup (map fst d) -> NoDup (map fst (dict_set k v d)) /\
  (forall k', k' ∈ map fst (dict_set k v d) <-> k' = k \/ k' ∈ map fst d).
Proof.
  induction d as [|[k0 v0] d IH]; simpl; intros Hnd.
  - split; [apply NoDup_singleton|]. intros k'.
    rewrite elem_of_cons, !elem_of_nil. tauto.
  - apply NoDup_cons in Hnd as [Hnotin Hnd].
    destruct (IH Hnd) as [IHnd IHin].
    destruct (String.eqb_spec k k0) as [->|Hne]; simpl.
    + split; [by apply NoDup_cons|]. intros k'.
      rewrite !elem_of_cons. tauto.
    + split.
      * apply NoDup_cons. split; [|done].
        rewrite IHin. intros [?|?]; congruence.
      * intros k'. rewrite !elem_of_cons, IHin. tauto.
Qed.

(** The whole loop, started from any summary. *)
Lemma summary_fold l acc :
  let s := fold_left summary_step l acc in
  Summary.total_events s = Summary.total_events acc /\
  Summary.successful_events s =
    Summary.successful_events acc +
    count_of (fun log => Log.success log = true) l /\
  Summary.failed_events s =
    Summary.failed_events acc +
    count_of (fun log => Log.success log = false) l /\
  Summary.access_denied s =
    Summary.access_denied acc + count_type "ACCESS_DENIED" l /\
  Summary.uploads s = Summary.uploads acc + count_type "FILE_UPLOAD" l /\
  Summary.downloads s =
    Summary.downloads acc + count_type "FILE_DOWNLOAD" l /\
  Summary.login_attempts s =
    Summary.login_attempts acc + count_type "LOGIN_SUCCESS" l +
    count_type "LOGIN_FAILED" l /\
  Summary.failed_logins s =
    Summary.failed_logins acc + count_type "LOGIN_FAILED" l.
Proof.
  revert acc. induction l as [|x l IH]; intros acc; cbv zeta.
  - simpl. unfold count_type. rewrite !count_of_nil. repeat split; lia.
  - simpl. specialize (IH (summary_step acc x)). cbv zeta in IH.
    destruct IH as (I1 & I2 & I3 & I4 & I5 & I6 & I7 & I8).
    destruct (summary_step_counters acc x)
      as (S1 & S2 & S3 & S4 & S5 & S6 & S7 & S8 & _).
    unfold count_type in *. rewrite !count_of_cons.
    rewrite I1, I2, I3, I4, I5, I6, I7, I8, S1, S2, S3, S4, S5, S6, S7, S8.
    repeat split; lia.
Qed.

Lemma summary_fold_event_types l acc t :
  dict_get t (Summary.event_types (fold_left summary_step l acc)) =
  match dict_get t (Summary.event_types acc) with
  | Some n => Some (n + count_type t l)
  | None => if count_type t l =? 0 then None else Some (count_type t l)
  end.
Proof.
  revert acc. induction l as [|x l IH]; intros acc.
  - simpl. unfold count_type. rewrite count_of_nil.
    destruct (dict_get t _) as [n|]; [f_equal; lia|done].
  - simpl. rewrite IH.
    destruct (summary_step_counters acc x) as (_&_&_&_&_&_&_&_& ->).
    rewrite dict_get_set. unfold count_type. rewrite count_of_cons.
    assert (0 <= count_of (fun log => Log.event_type log = t) l)
      by apply count_of_nonneg.
    destruct (String.eqb_spec t (Log.event_type x)) as [->|Hne].
    + rewrite decide_True by done.
      destruct (dict_get (Log.event_type x) _) as [n|]; simpl.
      * f_equal. lia.
      * match goal with
        | |- context [?a =? 0] => destruct (Z.eqb_spec a 0); [lia|]
        end.
        f_equal; lia.
    + rewrite decide_False by congruence. simpl.
      by destruct (dict_get t _).
Qed.

Lemma summary_fold_keys l acc :
  NoDup (map fst (Summary.event_types acc)) ->
  NoDup (map fst (Summary.event_types (fold_left summary_step l acc))).
Proof.
  revert acc. induction l as [|x l IH]; intros acc Hnd; [done|].
  simpl. apply IH.
  destruct (summary_step_counters acc x) as (_&_&_&_&_&_&_&_& ->).
  by apply dict_set_keys.
Qed.

Lemma get_security_summary_run username w :
  SummaryAnswer.summary (get_security_summary username w).1 =
  fold_left summary_step (reverse (considered username w))
    (Summary.mk (Z.of_nat (length (considered username w))) 0 0 0 0 0 0 0 []).
Proof.
  unfold get_security_summary. rewrite bind_run, get_audit_logs_run.
  unfold Py.reversed, considered.
  rewrite <- !(slice_from_neg 1000) by lia.
  unfold ret. cbn [fst SummaryAnswer.summary].
  by rewrite length_reverse.
Qed.

(** X13. [get_security_summary] looks at the newest 1000 entries of
    the user (of everybody when no user is given): [total_events] is
    their number, at most 1000; [successful_events] and [failed_events]
    are the numbers of those with and without success, and add up to
    [total_events]. *)
Theorem get_security_summary_successes_and_failures username w :
  let s := SummaryAnswer.summary (get_security_summary username w).1 in
  let logs := considered username w in
  Summary.total_events s = Z.of_nat (length logs) /\
  Summary.total_events s <= 1000 /\
  Summary.successful_events s =
    count_of (fun log => Log.success log = true) logs /\
  Summary.failed_events s =
    count_of (fun log => Log.success log = false) logs /\
  Summary.successful_events s + Summary.failed_events s =
    Summary.total_events s.
Proof.
  intros s logs. unfold s. rewrite get_security_summary_run. fold logs.
  destruct (summary_fold (reverse logs)
              (Summary.mk (Z.of_nat (length logs)) 0 0 0 0 0 0 0 []))
    as (H1 & H2 & H3 & _).
  cbv zeta in *. rewrite H1, H2, H3, !count_of_reverse. simpl.
  assert (Hlen : (length logs <= 1000)%nat).
  { unfold logs, considered. rewrite length_newest. lia. }
  repeat split; try lia.
  unfold count_of. clear. induction logs as [|x l IH]; [done|].
  rewrite !filter_cons.
  destruct (Log.success x); simpl;
    repeat case_decide; try done; simpl; lia.
Qed.

(** X14. The named counters of the summary are exact: [access_denied],
    [uploads], [downloads] and [failed_logins] are the numbers of
    entries of the types ACCESS_DENIED, FILE_UPLOAD, FILE_DOWNLOAD and
    LOGIN_FAILED, and [login_attempts] is the number of LOGIN_SUCCESS
    plus LOGIN_FAILED entries, so never less than [failed_logins]. *)
Theorem get_security_summary_named_counters username w :
  let s := SummaryAnswer.summary (get_security_summary username w).1 in
  let logs := considered username w in
  Summary.access_denied s = count_type "ACCESS_DENIED" logs /\
  Summary.uploads s = count_type "FILE_UPLOAD" logs /\
  Summary.downloads s = count_type "FILE_DOWNLOAD" logs /\
  Summary.failed_logins s = count_type "LOGIN_FAILED" logs /\
  Summary.login_attempts s =
    count_type "LOGIN_SUCCESS" logs + count_type "LOGIN_FAILED" logs /\
  Summary.failed_logins s <= Summary.login_attempts s.
Proof.
  intros s logs. unfold s. rewrite get_security_summary_run. fold logs.
  destruct (summary_fold (reverse logs)
              (Summary.mk (Z.of_nat (length logs)) 0 0 0 0 0 0 0 []))
    as (_ & _ & _ & H4 & H5 & H6 & H7 & H8).
  cbv zeta in *. rewrite H4, H5, H6, H7, H8.
  unfold count_type. rewrite !count_of_reverse. simpl.
  assert (0 <= count_of (fun log => Log.event_type log = "LOGIN_SUCCESS")
                 logs) by apply count_of_nonneg.
  repeat split; lia.
Qed.

(** X15. The breakdown by event type is exact: every event type that
    occurs among the entries looked at is a key of [event_types], once,
    with the number of its entries as value, and no other key is
    there. *)
Theorem get_security_summary_event_types username w t :
  let s := SummaryAnswer.summary (get_security_summary username w).1 in
  let logs := considered username w in
  dict_get t (Summary.event_types s) =
    (if count_type t logs =? 0 then None else Some (count_type t logs)) /\
  NoDup (map fst (Summary.event_types s)).
Proof.
  intros s logs. unfold s. rewrite get_security_summary_run. fold logs.
  split.
  - rewrite summary_fold_event_types. simpl.
    unfold count_type. by rewrite count_of_reverse.
  - apply summary_fold_keys. simpl. apply NoDup_nil_2.
Qed.

(** ** Denials in the audit trail *)

(** The entry [log_access_denied] asks [log_event] to build. *)
Lemma log_access_denied_event
    username file_id reason failed_check ip_address details :
  log_access_denied username file_id reason failed_check ip_address details =
  log_event_of
    (Event.mk "ACCESS_DENIED" username (Some file_id)
       (Some (default ∅ details ∪
              <["reason" := reason]>
              (<["failed_check" := failed_check]>
              (<["action" := "Access denied by Zero-Trust policy"]> ∅))))
       (Some ip_address) false).
Proof.
  unfold log_access_denied, log_event_of. simpl.
  destruct details as [d|]; simpl.
  - case_bool_decide as Hd; [|done]. subst d. by rewrite (left_id_L ∅ (∪)).
  - by rewrite (left_id_L ∅ (∪)).
Qed.

(** X16. [log_access_denied] records an ACCESS_DENIED entry without
    success for the user and the file.  Its details hold every key of
    the caller's [details]; the reason and the failed check given as
    arguments are recorded under ["reason"] and ["failed_check"] unless
    [details] has these keys itself, in which case the values of
    [details] are the ones recorded. *)
Theorem log_access_denied_records_details
    username file_id reason failed_check ip_address details w :
  exists entry,
    last (audit_logs
            (log_access_denied username file_id reason failed_check
               ip_address details w).2) = Some entry /\
    Log.event_type entry = "ACCESS_DENIED" /\
    Log.success entry = false /\
    Log.username entry = username /\
    Log.file_id entry = Some file_id /\
    Log.ip_address entry = Some ip_address /\
    default ∅ details ⊆ Log.details entry /\
    Log.details entry !! "reason" =
      Some (default reason (default ∅ details !! "reason")) /\
    Log.details entry !! "failed_check" =
      Some (default failed_check (default ∅ details !! "failed_check")).
Proof.
  rewrite log_access_denied_event.
  destruct (audit_logs_snoc
              (Event.mk "ACCESS_DENIED" username (Some file_id)
                 (Some (default ∅ details ∪
                        <["reason" := reason]>
                        (<["failed_check" := failed_check]>
                        (<["action" :=
                             "Access denied by Zero-Trust policy"]> ∅))))
                 (Some ip_address) false) w) as [older ->].
  eexists. split; [apply last_snoc|]. simpl.
  repeat split.
  - apply map_union_subseteq_l.
  - rewrite lookup_union.
    destruct (default ∅ details !! "reason") as [v|]; simpl; [done|].
    by rewrite lookup_insert_eq.
  - rewrite lookup_union.
    destruct (default ∅ details !! "failed_check") as [v|]; simpl; [done|].
    rewrite lookup_insert_ne by done. by rewrite lookup_insert_eq.
Qed.

(** The entries the summary looks at, after one more call of
    [log_event] on a log below the cap. *)
Lemma considered_after_log_event e who w :
  (length (audit_logs w) < 1000)%nat ->
  passes who None (entry_of (clock w (ticks w)) e) ->
  considered who (log_event_of e w).2 =
  (considered who w ++ [entry_of (clock w (ticks w)) e])%list.
Proof.
  intros Hlen Hpass. unfold considered.
  rewrite log_event_of_run. simpl.
  rewrite (newest_short 1000 (audit_logs w ++ _))
    by (rewrite length_app; simpl; lia).
  rewrite filter_app, filter_cons_True, filter_nil by done.
  pose proof (length_filter (passes who None) (audit_logs w)) as Hf.
  rewrite (newest_short 1000 (filter _ _ ++ _))
    by (rewrite length_app; simpl; lia).
  by rewrite newest_short by lia.
Qed.

(** X17. A denial logged is a denial counted: on a log below the cap
    of 1000 entries, [log_access_denied] raises [access_denied],
    [failed_events] and [total_events] of the summary of everybody, and
    of the summary of the user denied, by one each, and leaves the other
    counters as they were. *)
Theorem log_access_denied_then_summary
    username file_id reason failed_check ip_address details who w :
  (length (audit_logs w) < 1000)%nat ->
  who = None \/ who = Some username ->
  let before := SummaryAnswer.summary (get_security_summary who w).1 in
  let after :=
    SummaryAnswer.summary
      (get_security_summary who
         (log_access_denied username file_id reason failed_check ip_address
            details w).2).1 in
  Summary.access_denied after = Summary.access_denied before + 1 /\
  Summary.failed_events after = Summary.failed_events before + 1 /\
  Summary.total_events after = Summary.total_events before + 1 /\
  Summary.successful_events after = Summary.successful_events before /\
  Summary.uploads after = Summary.uploads before /\
  Summary.downloads after = Summary.downloads before /\
  Summary.login_attempts after = Summary.login_attempts before /\
  Summary.failed_logins after = Summary.failed_logins before.
Proof.
  intros Hlen Hwho before after. unfold before, after.
  rewrite log_access_denied_event, !get_security_summary_run.
  set (e := Event.mk _ _ _ _ _ _).
  rewrite (considered_after_log_event e who w Hlen).
  2:{ split; [|done]. intros Ht. destruct Hwho as [->| ->]; done. }
  set (logs := considered who w).
  destruct (summary_fold (reverse (logs ++ [entry_of (clock w (ticks w)) e]))
              (Summary.mk
                 (Z.of_nat (length (logs ++ [entry_of (clock w (ticks w)) e])))
                 0 0 0 0 0 0 0 []))
    as (A1 & A2 & A3 & A4 & A5 & A6 & A7 & A8).
  destruct (summary_fold (reverse logs)
              (Summary.mk (Z.of_nat (length logs)) 0 0 0 0 0 0 0 []))
    as (B1 & B2 & B3 & B4 & B5 & B6 & B7 & B8).
  cbv zeta in *.
  rewrite A1, A2, A3, A4, A5, A6, A7, A8, B1, B2, B3, B4, B5, B6, B7, B8.
  unfold count_type. rewrite !count_of_reverse, !count_of_snoc. simpl.
  rewrite length_app. simpl.
  repeat split; repeat case_decide; try done; lia.
Qed.

(** ** The gates and the lookup service *)

Lemma check_time_based_access_requests file_id w :
  requests (check_time_based_access file_id w).2 = requests w /\
  files (check_time_based_access file_id w).2 = files w /\
  network (check_time_based_access file_id w).2 = network w.
Proof.
  rewrite check_time_based_access_world.
  by destruct (files w !! file_id).
Qed.

Lemma check_location_based_access_requests file_id ip_address w :
  requests (check_location_based_access file_id ip_address w).2 =
  if bool_decide (is_Some (files w !! file_id)) && negb (skips_lookup ip_address)
  then (requests w ++ ["http://ip-api.com/json/" +:+ ip_address])%list
  else requests w.
Proof.
  unfold check_location_based_access.
  rewrite bind_run, get_file_metadata_run. simpl.
  destruct (files w !! file_id) as [meta|]; simpl; [|done].
  rewrite bind_run.
  destruct (skips_lookup ip_address) eqn:Hs; simpl.
  - rewrite get_location_from_ip_local by done. simpl.
    by destruct (Py.contains _ _).
  - pose proof (get_location_from_ip_remote ip_address w Hs) as Hr.
    destruct (get_location_from_ip ip_address w)
      as [[cc c ci r i l|r i] w']; simpl in *; [|done].
    by destruct (Py.contains cc _).
Qed.

(** X18. [verify_access] asks the lookup service at most once, and
    only for a request that passed the identity gate and the time gate
    and whose origin is not one the resolver answers itself: in every
    other case no request leaves. *)
Theorem verify_access_lookup_requests username file_id ip_address w :
  let g1 := (check_user_permission username file_id (tick w)).1 in
  let g2 := (check_time_based_access file_id (tick w)).1 in
  requests (verify_access username file_id ip_address w).2 =
  if Gate.allowed g1 && Gate.allowed g2 && negb (skips_lookup ip_address)
  then (requests w ++ ["http://ip-api.com/json/" +:+ ip_address])%list
  else requests w.
Proof.
  intros g1 g2.
  pose proof (verify_access_unfold username file_id ip_address w) as Hrun.
  cbv zeta in Hrun. fold g1 g2 in Hrun. rewrite Hrun. clear Hrun.
  destruct (check_time_based_access_requests file_id (tick w))
    as (Hreq & Hfiles & _).
  assert (Hexists : Gate.allowed g1 = true ->
                    is_Some (files (tick w) !! file_id)).
  { unfold g1. rewrite check_user_permission_allowed.
    destruct (files (tick w) !! file_id); [eauto|done]. }
  destruct (Gate.allowed g1); simpl; [|done].
  destruct (Gate.allowed g2); simpl; [|by rewrite Hreq].
  assert (Hloc :
    requests (check_location_based_access file_id ip_address
                (check_time_based_access file_id (tick w)).2).2 =
    if negb (skips_lookup ip_address)
    then (requests w ++ ["http://ip-api.com/json/" +:+ ip_address])%list
    else requests w).
  { rewrite check_location_based_access_requests, Hfiles, Hreq.
    rewrite bool_decide_eq_true_2 by auto. done. }
  by destruct (negb (Gate.allowed _)).
Qed.

(** X19. A lookup that succeeds without naming a country code counts
    as the code "UNKNOWN": the region gate then allows exactly the
    policies that list "UNKNOWN" among their regions. *)
Theorem region_gate_country_code_missing w file_id ip_address meta data :
  files w !! file_id = Some meta ->
  skips_lookup ip_address = false ->
  network w ("http://ip-api.com/json/" +:+ ip_address) =
    Http.Response 200 (Http.Json data) ->
  data !! "status" = Some "success" ->
  data !! "countryCode" = None ->
  Gate.allowed (check_location_based_access file_id ip_address w).1 =
  Py.contains "UNKNOWN" (Meta.allowed_regions meta).
Proof.
  intros Hf Hs Hn Hst Hcc.
  rewrite (check_location_based_access_run _ _ _ _ Hf).
  unfold get_location_from_ip. rewrite Hs, bind_run. simpl.
  rewrite Hn. simpl. rewrite Hst. simpl. by rewrite Hcc.
Qed.

(** A policy with an empty list of regions admits no origin at the
    region gate: not a local one, and not one the lookup service
    resolves, whatever it answers. *)
Lemma region_gate_empty_regions_denies w file_id ip_address meta :
  files w !! file_id = Some meta ->
  Meta.allowed_regions meta = [] ->
  Gate.allowed (check_location_based_access file_id ip_address w).1 = false.
Proof.
  intros Hf Hnil. rewrite (check_location_based_access_run _ _ _ _ Hf).
  destruct (get_location_from_ip ip_address w).1 as [cc ? ? ? ? ?|]; [|done].
  simpl. rewrite Hnil. by apply bool_decide_eq_false_2, not_elem_of_nil.
Qed.

(** X20. A file saved without any access settings gets the window
    09:00 to 18:00 and the regions IN, US and GB: its owner, coming from
    an origin the resolver takes as local, is then allowed by
    [verify_access] exactly when the clock read by the time gate shows a
    time from 09:00:00 to 18:00:00. *)
Theorem default_policy_admits_owner_in_office_hours
    file_id owner original_filename ip_address w :
  skips_lookup ip_address = true ->
  let w' := (save_file_metadata file_id owner original_filename
               (Upload.mk None None None None) w).2 in
  let now := time_of (clock w (S (S (ticks w)))) in
  valid_time now ->
  Verdict.allowed (verify_access owner file_id ip_address w').1 = true <->
  micros (mk_time 9 0 0 0) <= micros now <= micros (mk_time 18 0 0 0).
Proof.
  intros Hlocal w' now Hnow.
  pose proof (verify_access_unfold owner file_id ip_address w') as Hrun.
  cbv zeta in Hrun.
  set (m := Meta.mk owner original_filename (isoformat (clock w (ticks w)))
              [owner] "09:00" "18:00" ["IN"; "US"; "GB"] ∅).
  assert (Hf : files (tick w') !! file_id = Some m).
  { unfold w'. rewrite save_file_metadata_run. simpl. apply lookup_insert_eq. }
  assert (H1 : Gate.allowed
                 (check_user_permission owner file_id (tick w')).1 = true).
  { rewrite check_user_permission_allowed, Hf. simpl.
    apply bool_decide_eq_true_2. by left. }
  assert (H3 : Gate.allowed
                 (check_location_based_access file_id ip_address
                    (tick w')).1 = true).
  { by rewrite (check_location_based_access_local _ _ _ _ Hf Hlocal). }
  assert (H2 : Gate.allowed
                 (check_time_based_access file_id (tick w')).1 =
               time_le (mk_time 9 0 0 0) now && time_le now (mk_time 18 0 0 0)).
  { by rewrite (check_time_based_access_run _ _ _ Hf). }
  rewrite Hrun, H1, H2, H3. simpl.
  assert (Hv9 : valid_time (mk_time 9 0 0 0)) by (unfold valid_time; simpl; lia).
  assert (Hv18 : valid_time (mk_time 18 0 0 0))
    by (unfold valid_time; simpl; lia).
  rewrite <- (time_le_micros _ _ Hv9 Hnow), <- (time_le_micros _ _ Hnow Hv18).
  destruct (time_le (mk_time 9 0 0 0) now), (time_le now (mk_time 18 0 0 0));
    simpl; intuition congruence.
Qed.

(** ** The helpers of the request layer *)

Lemma after_last_dot_none s :
  has_char "." s = false -> after_last_dot s = None.
Proof.
  induction s as [|c s IH]; [done|]. cbn [has_char after_last_dot].
  intros [Hc Hs]%orb_false_iff. rewrite (IH Hs).
  destruct (Ascii.eqb_spec c ".") as [->|Hne]; [|done].
  by rewrite Ascii.eqb_refl in Hc.
Qed.

Lemma after_last_dot_some s :
  has_char "." s = true -> is_Some (after_last_dot s).
Proof.
  induction s as [|c s IH]; [done|]. cbn [has_char after_last_dot].
  destruct (after_last_dot s) as [t|] eqn:E; [eauto|].
  intros [Hc|Hs]%orb_true_iff.
  - apply Ascii.eqb_eq in Hc as <-. rewrite Ascii.eqb_refl. eauto.
  - destruct (IH Hs) as [? ?]. done.
Qed.

Lemma after_last_dot_app base ext :
  has_char "." ext = false ->
  after_last_dot (base +:+ "." +:+ ext) = Some ext.
Proof.
  intros Hext. induction base as [|c base IH].
  - change (after_last_dot (String "." ext) = Some ext).
    cbn [after_last_dot]. by rewrite (after_last_dot_none ext Hext).
  - change (after_last_dot (String c (base +:+ "." +:+ ext)) = Some ext).
    cbn [after_last_dot]. by rewrite IH.
Qed.

Lemma has_char_app c s t : has_char c (s +:+ t) = has_char c s || has_char c t.
Proof.
  induction s as [|c' s IH]; [done|].
  change (has_char c (String c' (s +:+ t)) =
          has_char c (String c' s) || has_char c t).
  cbn [has_char]. by rewrite IH, orb_assoc.
Qed.

(** X21. Only the text after the last dot of a file name counts, and
    it counts without regard to case: a name [base.ext], where [ext] has
    no dot, is allowed exactly when [ext] in lower case is one of the
    allowed extensions, whatever [base] is, other extensions inside it
    included; [get_file_extension] is [ext] in lower case. *)
Theorem allowed_file_last_extension base ext :
  has_char "." ext = false ->
  allowed_file (base +:+ "." +:+ ext) =
    Py.contains (lower ext) ALLOWED_EXTENSIONS /\
  get_file_extension (base +:+ "." +:+ ext) = lower ext.
Proof.
  intros Hext. unfold allowed_file, get_file_extension.
  rewrite after_last_dot_app by done.
  rewrite !has_char_app.
  change (has_char "." ".") with true. by rewrite orb_true_r.
Qed.

(** [allowed_file] and [get_file_extension] agree: a file name is
    allowed exactly when the extension [get_file_extension] gives for it
    is an allowed one; a name without a dot has the extension [""] and
    is not allowed. *)
Lemma allowed_file_iff_extension_allowed filename :
  allowed_file filename =
    Py.contains (get_file_extension filename) ALLOWED_EXTENSIONS /\
  (if has_char "." filename then True
   else get_file_extension filename = "" /\ allowed_file filename = false).
Proof.
  unfold allowed_file, get_file_extension.
  destruct (has_char "." filename) eqn:Hdot; simpl.
  - split; [|done].
    by destruct (after_last_dot_some filename Hdot) as [ext ->].
  - done.
Qed.

Lemma before_comma_app first rest :
  has_char "," first = false ->
  before_comma (first +:+ "," +:+ rest) = first /\ before_comma first = first.
Proof.
  induction first as [|c first IH]; [done|]. cbn [has_char].
  intros [Hc Hf]%orb_false_iff.
  change (before_comma (String c (first +:+ "," +:+ rest)) = String c first /\
          before_comma (String c first) = String c first).
  cbn [before_comma].
  destruct (Ascii.eqb_spec c ",") as [->|Hne].
  - by rewrite Ascii.eqb_refl in Hc.
  - by destruct (IH Hf) as [-> ->].
Qed.

(** X22. [get_client_ip] believes the [X-Forwarded-For] header: if
    the header is there, its first element is the client address
    whatever the address of the connection is; without the header the
    address of the connection is taken, and 127.0.0.1 when there is
    none. *)
Theorem get_client_ip_prefers_forwarded_header first rest remote_addr :
  first <> "" -> has_char "," first = false ->
  get_client_ip (Some (first +:+ "," +:+ rest)) remote_addr = first /\
  get_client_ip (Some first) remote_addr = first /\
  get_client_ip None (Some first) = first /\
  get_client_ip None None = "127.0.0.1" /\
  get_client_ip (Some "") None = "127.0.0.1".
Proof.
  intros Hne Hcomma. unfold get_client_ip.
  destruct (before_comma_app first rest Hcomma) as [H1 H2].
  destruct first as [|c first]; [done|]. simpl in *.
  by rewrite H1, H2.
Qed.

(** X23. A request whose [X-Forwarded-For] header starts with an
    address the resolver takes as local (127.0.0.1, localhost,
    192.168.x) passes the region gate exactly when the policy lists the
    region IN: neither the address of the connection nor the lookup
    service has a say, and no lookup request is sent. *)
Theorem forwarded_local_address_decides_region
    w file_id meta first rest remote_addr :
  files w !! file_id = Some meta ->
  skips_lookup first = true ->
  has_char "," first = false ->
  let ip_address := get_client_ip (Some (first +:+ "," +:+ rest)) remote_addr in
  Gate.allowed (check_location_based_access file_id ip_address w).1 =
    Py.contains "IN" (Meta.allowed_regions meta) /\
  requests (check_location_based_access file_id ip_address w).2 = requests w.
Proof.
  intros Hf Hlocal Hcomma ip_address.
  assert (Hip : ip_address = first).
  { unfold ip_address, get_client_ip.
    destruct (before_comma_app first rest Hcomma) as [H1 _].
    destruct first as [|c first]; [done|]. simpl in *. by rewrite H1. }
  rewrite Hip. split.
  - by apply check_location_based_access_local.
  - rewrite check_location_based_access_requests, Hlocal. simpl.
    by rewrite andb_false_r.
Qed.

(** ** The users *)

Lemma bind_s_run {A B} (m : MS A) (k : A -> MS B) s :
  bind_s m k s = k (m s).1 (m s).2.
Proof. unfold bind_s. by destruct (m s). Qed.

Lemma dict_get_is_Some {V} k (d : list (string * V)) :
  is_Some (dict_get k d) <-> k ∈ map fst d.
Proof.
  induction d as [|[k' v] d IH]; simpl.
  - split; [by intros [? ?]|by intros ?%elem_of_nil].
  - rewrite elem_of_cons, <- IH.
    destruct (String.eqb_spec k k') as [->|Hne]; [split; eauto|].
    split; [by right|]. by intros [?|?].
Qed.

Lemma dict_set_fresh {V} k (v : V) d :
  dict_get k d = None -> dict_set k v d = (d ++ [(k, v)])%list.
Proof.
  induction d as [|[k' v'] d IH]; simpl; [done|].
  destruct (String.eqb k k'); [done|]. intros H. by rewrite IH.
Qed.

Lemma email_registered_spec email d :
  email_registered email d = true <->
  email ∈ map (fun entry => User.email entry.2) d.
Proof.
  induction d as [|[k u] d IH]; simpl.
  - split; [done|by intros ?%elem_of_nil].
  - rewrite elem_of_cons, <- IH.
    destruct (String.eqb_spec (User.email u) email) as [->|Hne];
      [split; eauto|].
    split; [by right|]. by intros [?|?].
Qed.

Lemma find_by_email_snoc email d k u :
  email_registered email d = false ->
  find_by_email email (d ++ [(k, u)]) =
  if String.eqb (User.email u) email
  then Some (NamedUser.mk (User.email u) (User.password_hash u)
               (User.created_at u) (User.role u) k)
  else None.
Proof.
  induction d as [|[k' u'] d IH]; simpl; [done|].
  by destruct (String.eqb (User.email u') email).
Qed.

Lemma create_user_run username email password_hash s :
  create_user username email password_hash s =
  if bool_decide (is_Some (dict_get username (users s)))
  then (Res.mk false "Username already exists", s)
  else if email_registered email (users s)
  then (Res.mk false "Email already registered", s)
  else (Res.mk true "User created successfully",
        mk_site (tick (world s))
          (users s ++
           [(username,
             User.mk email password_hash
               (isoformat (clock (world s) (ticks (world s)))) "user")])
          (salts s) (drawn s)).
Proof.
  unfold create_user. rewrite bind_s_run. simpl.
  case_bool_decide as Hin; [done|].
  destruct (email_registered email (users s)); [done|].
  unfold bind_s, lift, write_users, ret_s. simpl.
  rewrite dict_set_fresh; [done|].
  destruct (dict_get username (users s)) eqn:E; [|done].
  exfalso. apply Hin. eauto.
Qed.

(** X24. [create_user] refuses a user name that is taken and an email
    that is registered, and then changes nothing; otherwise it appends
    the user, with the role "user" and the time of the call.  User names
    and emails that were pairwise distinct stay so. *)
Theorem create_user_keeps_names_and_emails_distinct
    username email password_hash s :
  NoDup (map fst (users s)) ->
  NoDup (map (fun entry => User.email entry.2) (users s)) ->
  let created := create_user username email password_hash s in
  Res.success created.1 =
    negb (bool_decide (username ∈ map fst (users s))) &&
    negb (bool_decide
            (email ∈ map (fun entry => User.email entry.2) (users s))) /\
  (if Res.success created.1
   then users created.2 =
        (users s ++
         [(username,
           User.mk email password_hash
             (isoformat (clock (world s) (ticks (world s)))) "user")])%list
   else created.2 = s) /\
  NoDup (map fst (users created.2)) /\
  NoDup (map (fun entry => User.email entry.2) (users created.2)).
Proof.
  intros Hnames Hemails. cbv zeta. rewrite create_user_run.
  case_bool_decide as Hin.
  - apply dict_get_is_Some in Hin.
    rewrite (bool_decide_eq_true_2 _ Hin). simpl. done.
  - rewrite dict_get_is_Some in Hin.
    rewrite (bool_decide_eq_false_2 _ Hin). simpl.
    destruct (email_registered email (users s)) eqn:He.
    + apply email_registered_spec in He.
      rewrite (bool_decide_eq_true_2 _ He). simpl. done.
    + assert (Hnot : email ∉ map (fun entry => User.email entry.2) (users s)).
      { intros H%email_registered_spec. congruence. }
      rewrite (bool_decide_eq_false_2 _ Hnot). simpl.
      split; [done|]. split; [done|].
      rewrite !map_app. simpl. split.
      * apply NoDup_app. split; [done|]. split; [|apply NoDup_singleton].
        intros x Hx ->%list_elem_of_singleton. done.
      * apply NoDup_app. split; [done|]. split; [|apply NoDup_singleton].
        intros x Hx ->%list_elem_of_singleton. done.
Qed.

Lemma list_users_fold d acc :
  NoDup (map fst acc ++ map fst d) ->
  fold_left
    (fun safe_users entry =>
       dict_set entry.1
         (SafeUser.mk (User.email entry.2) (User.created_at entry.2)
            (User.role entry.2)) safe_users) d acc =
  (acc ++ map (fun entry =>
                 (entry.1, SafeUser.mk (User.email entry.2)
                             (User.created_at entry.2) (User.role entry.2)))
            d)%list.
Proof.
  revert acc. induction d as [|[k u] d IH]; intros acc Hnd; simpl.
  - by rewrite app_nil_r.
  - assert (Hk : dict_get k acc = None).
    { destruct (dict_get k acc) eqn:E; [|done].
      assert (Hin : k ∈ map fst acc) by (apply dict_get_is_Some; eauto).
      apply NoDup_app in Hnd as (_ & Hdis & _).
      exfalso. apply (Hdis k Hin). simpl. by left. }
    rewrite dict_set_fresh by done. rewrite IH.
    + by rewrite <- app_assoc.
    + rewrite map_app. simpl. rewrite <- app_assoc. done.
Qed.

(** X25. A user just created can be looked up: after a successful
    [create_user], [get_user] finds the record under the user name,
    [get_user_by_email] finds it, with the user name, under the email,
    and [list_users] ends with the user, shown with email, creation time
    and role. *)
Theorem create_user_then_lookup username email password_hash s :
  NoDup (map fst (users s)) ->
  Res.success (create_user username email password_hash s).1 = true ->
  let s' := (create_user username email password_hash s).2 in
  let stamp := isoformat (clock (world s) (ticks (world s))) in
  (get_user username s').1 =
    Some (User.mk email password_hash stamp "user") /\
  (get_user_by_email email s').1 =
    Some (NamedUser.mk email password_hash stamp "user" username) /\
  (list_users s').1 =
    ((list_users s).1 ++ [(username, SafeUser.mk email stamp "user")])%list.
Proof.
  intros Hnames. cbv zeta. rewrite create_user_run.
  case_bool_decide as Hin; [done|].
  destruct (email_registered email (users s)) eqn:He; [done|].
  intros _. unfold get_user, get_user_by_email, list_users.
  rewrite !bind_s_run. simpl.
  assert (Hfresh : dict_get username (users s) = None).
  { destruct (dict_get username (users s)) eqn:E; [|done].
    exfalso. apply Hin. eauto. }
  assert (Hnotin : username ∉ map fst (users s)).
  { intros H%dict_get_is_Some. apply Hin, H. }
  split; [|split].
  - rewrite <- (dict_set_fresh username _ _ Hfresh), dict_get_set.
    by rewrite String.eqb_refl.
  - rewrite find_by_email_snoc by done. simpl. by rewrite String.eqb_refl.
  - rewrite !list_users_fold; simpl.
    + by rewrite map_app.
    + done.
    + rewrite map_app. simpl. apply NoDup_app.
      split; [done|]. split; [|apply NoDup_singleton].
      intros x Hx ->%list_elem_of_singleton. done.
Qed.

(** ** Registration and login *)

Lemma lift_log_event_run e s :
  lift (log_event_of e) s =
  (tt, mk_site (log_event_of e (world s)).2 (users s) (salts s) (drawn s)).
Proof.
  unfold lift. by destruct (log_event_of e (world s)) as [[] w'].
Qed.

Lemma register_user_rejects_invalid_input_aux
    hashpw username email password s :
  (String.length username < 3)%nat \/ has_char "@" email = false \/
  (String.length password < 6)%nat ->
  Res.success (register_user hashpw username email password s).1 = false /\
  (register_user hashpw username email password s).2 = s.
Proof.
  intros Hbad. unfold register_user.
  destruct (String.eqb username "" || (String.length username <? 3)%nat)
    eqn:Hu; [done|].
  destruct (String.eqb email "" || negb (has_char "@" email)) eqn:He; [done|].
  destruct (String.eqb password "" || (String.length password <? 6)%nat)
    eqn:Hp; [done|].
  exfalso.
  apply orb_false_iff in Hu as [_ Hu%Nat.ltb_ge].
  apply orb_false_iff in He as [_ He%negb_false_iff].
  apply orb_false_iff in Hp as [_ Hp%Nat.ltb_ge].
  destruct Hbad as [?|[?|?]]; [lia|congruence|lia].
Qed.

(** X26. [register_user] turns down a user name of fewer than three
    characters, an email without an at sign and a password of fewer
    than six characters before it does anything else: no password is
    hashed, no user stored, no audit entry written. *)
Theorem register_user_rejects_invalid_input hashpw username email password s :
  (String.length username < 3)%nat \/ has_char "@" email = false \/
  (String.length password < 6)%nat ->
  Res.success (register_user hashpw username email password s).1 = false /\
  (register_user hashpw username email password s).2 = s.
Proof. apply register_user_rejects_invalid_input_aux. Qed.

Lemma register_user_run hashpw username email password s :
  (3 <= String.length username)%nat -> has_char "@" email = true ->
  (6 <= String.length password)%nat ->
  register_user hashpw username email password s =
  match hashpw password (salts s (drawn s)) with
  | inl e =>
      (Res.mk false ("Registration failed: " +:+ e),
       mk_site (world s) (users s) (salts s) (S (drawn s)))
  | inr password_hash =>
      let s1 := mk_site (world s) (users s) (salts s) (S (drawn s)) in
      let created := create_user username email password_hash s1 in
      if Res.success created.1
      then (created.1,
            (lift (log_event_of
                     (Event.mk "REGISTER" username None
                        (Some (<["email" := email]> ∅)) None true))
               created.2).2)
      else created
  end.
Proof.
  intros Hu He Hp. unfold register_user.
  assert (Hu' : String.eqb username "" || (String.length username <? 3)%nat
                = false).
  { apply orb_false_iff. split; [|by apply Nat.ltb_ge].
    destruct (String.eqb_spec username "") as [->|]; [simpl in Hu; lia|done]. }
  assert (He' : String.eqb email "" || negb (has_char "@" email) = false).
  { apply orb_false_iff. split; [|by rewrite He].
    destruct (String.eqb_spec email "") as [->|]; [done|done]. }
  assert (Hp' : String.eqb password "" || (String.length password <? 6)%nat
                = false).
  { apply orb_false_iff. split; [|by apply Nat.ltb_ge].
    destruct (String.eqb_spec password "") as [->|]; [simpl in Hp; lia|done]. }
  rewrite Hu', He', Hp'. rewrite bind_s_run.
  unfold hash_password at 1 2. rewrite !bind_s_run. simpl.
  destruct (hashpw password (salts s (drawn s))) as [e|h]; [done|].
  rewrite bind_s_run. cbv zeta.
  destruct (create_user username email h _) as [result s2]. simpl.
  destruct (Res.success result); [|done].
  rewrite bind_s_run. simpl. done.
Qed.

(** X27. When [register_user] succeeds, the input was valid, the
    user name was free, the password was hashed with a fresh salt, the
    user is stored under the name with that hash, the email and the role
    "user", and the newest audit entry is the REGISTER event of the
    user, with the email in its details. *)
Theorem register_user_success_stores_user hashpw username email password s :
  Res.success (register_user hashpw username email password s).1 = true ->
  let s' := (register_user hashpw username email password s).2 in
  (3 <= String.length username)%nat /\ has_char "@" email = true /\
  (6 <= String.length password)%nat /\
  (get_user username s).1 = None /\
  exists password_hash entry,
    hashpw password (salts s (drawn s)) = inr password_hash /\
    (get_user username s').1 =
      Some (User.mk email password_hash
              (isoformat (clock (world s) (ticks (world s)))) "user") /\
    last (audit_logs (world s')) = Some entry /\
    Log.event_type entry = "REGISTER" /\ Log.username entry = username /\
    Log.success entry = true /\ Log.details entry !! "email" = Some email.
Proof.
  intros Hok. cbv zeta.
  assert (Hu : (3 <= String.length username)%nat).
  { destruct (Nat.le_gt_cases 3 (String.length username)) as [?|Hlt]; [done|].
    destruct (register_user_rejects_invalid_input_aux hashpw username email
                password s (or_introl Hlt)) as [Hf _]. congruence. }
  assert (He : has_char "@" email = true).
  { destruct (has_char "@" email) eqn:E; [done|].
    destruct (register_user_rejects_invalid_input_aux hashpw username email
                password s (or_intror (or_introl E))) as [Hf _]. congruence. }
  assert (Hp : (6 <= String.length password)%nat).
  { destruct (Nat.le_gt_cases 6 (String.length password)) as [?|Hlt]; [done|].
    destruct (register_user_rejects_invalid_input_aux hashpw username email
                password s (or_intror (or_intror Hlt))) as [Hf _].
    congruence. }
  rewrite (register_user_run _ _ _ _ _ Hu He Hp) in Hok |- *.
  destruct (hashpw password (salts s (drawn s))) as [e|h]; [done|].
  cbv zeta in Hok |- *. rewrite create_user_run in Hok |- *.
  cbn [users world salts drawn] in Hok |- *.
  case_bool_decide as Hin; [done|].
  destruct (email_registered email (users s)); [done|].
  cbn [fst snd Res.success] in Hok |- *.
  rewrite lift_log_event_run. cbn [snd world users].
  assert (Hfresh : dict_get username (users s) = None).
  { destruct (dict_get username (users s)) eqn:E; [|done].
    exfalso. apply Hin. eauto. }
  repeat split; try done.
  destruct (audit_logs_snoc
              (Event.mk "REGISTER" username None
                 (Some (<["email" := email]> ∅)) None true)
              (tick (world s))) as [older Hlog].
  exists h, (entry_of (clock (tick (world s)) (ticks (tick (world s))))
               (Event.mk "REGISTER" username None
                  (Some (<["email" := email]> ∅)) None true)).
  split; [done|]. split.
  - unfold get_user, bind_s, read_users, ret_s. cbn [fst snd users].
    rewrite <- (dict_set_fresh username _ _ Hfresh), dict_get_set.
    by rewrite String.eqb_refl.
  - rewrite Hlog. split; [apply last_snoc|].
    cbn [entry_of Log.event_type Log.username Log.success Log.details
         Event.event_type Event.username Event.success Event.details default
         from_option].
    by repeat split.
Qed.

Lemma login_user_unknown checkpw access_token refresh_token
    username password ip_address s :
  dict_get username (users s) = None ->
  login_user checkpw access_token refresh_token username password ip_address s
  = (Login.mk false "Invalid username or password" None None None,
     mk_site
       (log_event_of
          (Event.mk "LOGIN_FAILED" username None
             (Some (<["reason" := "User not found"]> ∅)) ip_address false)
          (world s)).2
       (users s) (salts s) (drawn s)).
Proof.
  intros Hu. unfold login_user, get_user.
  rewrite !bind_s_run. cbn [fst snd read_users ret_s]. rewrite Hu.
  rewrite bind_s_run.
  change (log_event "LOGIN_FAILED" username None
            (Some (<["reason" := "User not found"]> ∅)) ip_address false)
    with (log_event_of
            (Event.mk "LOGIN_FAILED" username None
               (Some (<["reason" := "User not found"]> ∅)) ip_address false)).
  by rewrite lift_log_event_run.
Qed.

Lemma login_user_known checkpw access_token refresh_token
    username password ip_address s user :
  dict_get username (users s) = Some user ->
  login_user checkpw access_token refresh_token username password ip_address s
  = match checkpw password (User.password_hash user) with
    | inl e => (Login.mk false ("Login failed: " +:+ e) None None None, s)
    | inr false =>
        (Login.mk false "Invalid username or password" None None None,
         mk_site
           (log_event_of
              (Event.mk "LOGIN_FAILED" username None
                 (Some (<["reason" := "Wrong password"]> ∅)) ip_address false)
              (world s)).2
           (users s) (salts s) (drawn s))
    | inr true =>
        match access_token username (User.role user) with
        | inl e => (Login.mk false ("Login failed: " +:+ e) None None None, s)
        | inr access =>
            match refresh_token username with
            | inl e =>
                (Login.mk false ("Login failed: " +:+ e) None None None, s)
            | inr refresh =>
                (Login.mk true "Login successful" (Some access) (Some refresh)
                   (Some (Login.mk_user username (User.email user)
                            (User.role user))),
                 mk_site
                   (log_event_of
                      (Event.mk "LOGIN_SUCCESS" username None None ip_address
                         true)
                      (world s)).2
                   (users s) (salts s) (drawn s))
            end
        end
    end.
Proof.
  intros Hu. unfold login_user, get_user, verify_password.
  rewrite !bind_s_run. cbn [fst snd read_users ret_s]. rewrite Hu.
  destruct (checkpw password (User.password_hash user)) as [e|[|]]; [done| |].
  - destruct (access_token username (User.role user)) as [e|access]; [done|].
    destruct (refresh_token username) as [e|refresh]; [done|].
    rewrite bind_s_run.
    change (log_event "LOGIN_SUCCESS" username None None ip_address true)
      with (log_event_of
              (Event.mk "LOGIN_SUCCESS" username None None ip_address true)).
    by rewrite lift_log_event_run.
  - rewrite bind_s_run.
    change (log_event "LOGIN_FAILED" username None
              (Some (<["reason" := "Wrong password"]> ∅)) ip_address false)
      with (log_event_of
              (Event.mk "LOGIN_FAILED" username None
                 (Some (<["reason" := "Wrong password"]> ∅)) ip_address
                 false)).
    by rewrite lift_log_event_run.
Qed.

(** X28. [login_user] gives one and the same answer for a user name
    that does not exist and for a wrong password, "Invalid username or
    password" without tokens, so the answer does not tell which user
    names exist.  Either way a LOGIN_FAILED entry for the name and the
    origin becomes the newest audit entry, and the users are as
    before. *)
Theorem login_user_failures_look_alike checkpw access_token refresh_token
    username password ip_address s :
  (get_user username s).1 = None \/
  (exists user, (get_user username s).1 = Some user /\
                checkpw password (User.password_hash user) = inr false) ->
  let attempt :=
    login_user checkpw access_token refresh_token username password
      ip_address s in
  attempt.1 = Login.mk false "Invalid username or password" None None None /\
  users attempt.2 = users s /\
  exists entry,
    last (audit_logs (world attempt.2)) = Some entry /\
    Log.event_type entry = "LOGIN_FAILED" /\ Log.username entry = username /\
    Log.ip_address entry = ip_address /\ Log.success entry = false.
Proof.
  intros Hcase. cbv zeta.
  destruct Hcase as [Hnone|(user & Hsome & Hwrong)].
  - rewrite (login_user_unknown _ _ _ _ _ _ _ Hnone). cbn [fst snd users world].
    split; [done|]. split; [done|].
    destruct (audit_logs_snoc
                (Event.mk "LOGIN_FAILED" username None
                   (Some (<["reason" := "User not found"]> ∅)) ip_address
                   false) (world s)) as [older ->].
    eexists. split; [apply last_snoc|]. done.
  - rewrite (login_user_known _ _ _ _ _ _ _ _ Hsome), Hwrong.
    cbn [fst snd users world].
    split; [done|]. split; [done|].
    destruct (audit_logs_snoc
                (Event.mk "LOGIN_FAILED" username None
                   (Some (<["reason" := "Wrong password"]> ∅)) ip_address
                   false) (world s)) as [older ->].
    eexists. split; [apply last_snoc|]. done.
Qed.

(** X29. [login_user] succeeds only for a stored user whose stored
    hash verifies the password: the answer then carries the two tokens
    made for the user name (the access token with the stored role), the
    email and the role of the user, and a LOGIN_SUCCESS entry becomes
    the newest audit entry. *)
Theorem login_user_success_needs_verified_password
    checkpw access_token refresh_token username password ip_address s :
  let attempt :=
    login_user checkpw access_token refresh_token username password
      ip_address s in
  Login.success attempt.1 = true ->
  exists user access refresh entry,
    (get_user username s).1 = Some user /\
    checkpw password (User.password_hash user) = inr true /\
    access_token username (User.role user) = inr access /\
    refresh_token username = inr refresh /\
    attempt.1 =
      Login.mk true "Login successful" (Some access) (Some refresh)
        (Some (Login.mk_user username (User.email user) (User.role user))) /\
    users attempt.2 = users s /\
    last (audit_logs (world attempt.2)) = Some entry /\
    Log.event_type entry = "LOGIN_SUCCESS" /\ Log.username entry = username /\
    Log.success entry = true.
Proof.
  cbv zeta.
  destruct (dict_get username (users s)) as [user|] eqn:Hu.
  - rewrite (login_user_known _ _ _ _ _ _ _ _ Hu).
    destruct (checkpw password (User.password_hash user)) as [e|[|]] eqn:Hc;
      [done| |done].
    destruct (access_token username (User.role user)) as [e|access] eqn:Ha;
      [done|].
    destruct (refresh_token username) as [e|refresh] eqn:Hr; [done|].
    intros _. cbn [fst snd users world].
    destruct (audit_logs_snoc
                (Event.mk "LOGIN_SUCCESS" username None None ip_address true)
                (world s)) as [older ->].
    exists user, access, refresh,
      (entry_of (clock (world s) (ticks (world s)))
         (Event.mk "LOGIN_SUCCESS" username None None ip_address true)).
    unfold get_user, bind_s, read_users, ret_s. cbn [fst snd].
    repeat split; try done. apply last_snoc.
  - by rewrite (login_user_unknown _ _ _ _ _ _ _ Hu).
Qed.

(** X30. Registration followed by login works, given a password
    library that verifies the hash it made and a token library that
    makes the two tokens: after a successful [register_user],
    [login_user] with the same name and password succeeds, with the role
    "user" and the registered email, and [get_user_info] shows the
    user. *)
Theorem register_user_then_login_user
    hashpw checkpw access_token refresh_token
    username email password ip_address access refresh s :
  (forall hashed, hashpw password (salts s (drawn s)) = inr hashed ->
                  checkpw password hashed = inr true) ->
  access_token username "user" = inr access ->
  refresh_token username = inr refresh ->
  Res.success (register_user hashpw username email password s).1 = true ->
  let s' := (register_user hashpw username email password s).2 in
  (login_user checkpw access_token refresh_token username password
     ip_address s').1 =
    Login.mk true "Login successful" (Some access) (Some refresh)
      (Some (Login.mk_user username email "user")) /\
  (get_user_info username s').1 =
    Info.mk true None
      (Some (Info.mk_user username email "user"
               (isoformat (clock (world s) (ticks (world s)))))).
Proof.
  intros Hlib Haccess Hrefresh Hok s'.
  assert (Huser : exists hashed,
            hashpw password (salts s (drawn s)) = inr hashed /\
            dict_get username (users s') =
            Some (User.mk email hashed
                    (isoformat (clock (world s) (ticks (world s)))) "user")).
  { assert (Hu : (3 <= String.length username)%nat).
    { destruct (Nat.le_gt_cases 3 (String.length username)) as [?|Hlt];
        [done|].
      destruct (register_user_rejects_invalid_input_aux hashpw username email
                  password s (or_introl Hlt)) as [Hf _]. congruence. }
    assert (He : has_char "@" email = true).
    { destruct (has_char "@" email) eqn:E; [done|].
      destruct (register_user_rejects_invalid_input_aux hashpw username email
                  password s (or_intror (or_introl E))) as [Hf _].
      congruence. }
    assert (Hp : (6 <= String.length password)%nat).
    { destruct (Nat.le_gt_cases 6 (String.length password)) as [?|Hlt];
        [done|].
      destruct (register_user_rejects_invalid_input_aux hashpw username email
                  password s (or_intror (or_intror Hlt))) as [Hf _].
      congruence. }
    unfold s'. rewrite (register_user_run _ _ _ _ _ Hu He Hp) in Hok |- *.
    destruct (hashpw password (salts s (drawn s))) as [e|h]; [done|].
    cbv zeta in Hok |- *. rewrite create_user_run in Hok |- *.
    cbn [users world salts drawn] in Hok |- *.
    case_bool_decide as Hin; [done|].
    destruct (email_registered email (users s)); [done|].
    cbn [fst snd Res.success] in Hok |- *.
    rewrite lift_log_event_run. cbn [snd world users].
    exists h. split; [done|].
    assert (Hfresh : dict_get username (users s) = None).
    { destruct (dict_get username (users s)) eqn:E; [|done].
      exfalso. apply Hin. eauto. }
    rewrite <- (dict_set_fresh username _ _ Hfresh), dict_get_set.
    by rewrite String.eqb_refl. }
  destruct Huser as (hashed & Hhash & Hget).
  split.
  - rewrite (login_user_known _ _ _ _ _ _ _ _ Hget).
    cbn [User.password_hash User.role User.email].
    by rewrite (Hlib hashed Hhash), Haccess, Hrefresh.
  - unfold get_user_info, get_user, bind_s, read_users, ret_s.
    cbn [fst snd]. by rewrite Hget.
Qed.

(** * Instances of the further properties *)

Lemma update_file_access_missing_file_witness :
  update_file_access "missing" (Some ["bob"]) None None alice_world =
  (Res.mk false "File not found", alice_world).
Proof.
  apply (update_file_access_missing_file "missing" (Some ["bob"]) None None
           alice_world).
  reflexivity.
Defined.

Lemma update_file_access_changes_given_fields_witness :
  let updated :=
    update_file_access "f" (Some ["alice"; "bob"]) None None alice_world in
  updated.1 = Res.mk true "Access control updated" /\
  files updated.2 !! "f" =
    (if decide ("f" = "f")
     then Some (Meta.mk (Meta.owner alice_policy)
                  (Meta.original_filename alice_policy)
                  (Meta.uploaded_at alice_policy)
                  (default (Meta.allowed_users alice_policy)
                     (Some ["alice"; "bob"]))
                  (from_option Window.start
                     (Meta.access_start_time alice_policy) None)
                  (from_option Window.end_
                     (Meta.access_end_time alice_policy) None)
                  (default (Meta.allowed_regions alice_policy) None)
                  (Meta.encryption_metadata alice_policy))
     else files alice_world !! "f") /\
  audit_logs updated.2 = audit_logs alice_world.
Proof.
  apply (update_file_access_changes_given_fields "f" (Some ["alice"; "bob"])
           None None alice_world alice_policy "f").
  reflexivity.
Defined.

Lemma update_file_access_then_identity_gate_witness :
  Gate.allowed
    (check_user_permission "bob" "f"
       (update_file_access "f" (Some ["alice"; "bob"]) None None
          alice_world).2).1 =
  Py.contains "bob" ["alice"; "bob"].
Proof.
  apply (update_file_access_then_identity_gate "f" ["alice"; "bob"] None None
           alice_world alice_policy "bob").
  reflexivity.
Defined.

Lemma log_event_then_get_audit_logs_witness :
  head (get_audit_logs None None 1
          (log_event_of (login "alice") (offline_world noon)).2).1 =
  Some (entry_of (clock (offline_world noon) (ticks (offline_world noon)))
          (login "alice")).
Proof.
  apply (log_event_then_get_audit_logs (login "alice") None None 1
           (offline_world noon)).
  - lia.
  - split; discriminate.
Defined.

Lemma get_audit_logs_nonpositive_limit_witness :
  (get_audit_logs None None (-1) two_logins).1 =
  reverse (drop (Z.to_nat (- (-1)))
             (filter (passes None None) (audit_logs two_logins))).
Proof.
  apply (get_audit_logs_nonpositive_limit None None (-1) two_logins). lia.
Defined.

Lemma activity_queries_respect_name_and_limit_witness :
  let by_user := (get_user_activity "alice" 5 two_logins).1 in
  let by_file := (get_file_activity "alice" 5 two_logins).1 in
  Activity.total_events by_user = Z.of_nat (length (Activity.logs by_user)) /\
  Activity.total_events by_user <= 5 /\
  Forall (fun log => Log.username log = "alice") (Activity.logs by_user) /\
  Activity.total_events by_file = Z.of_nat (length (Activity.logs by_file)) /\
  Activity.total_events by_file <= 5 /\
  Forall (fun log => Log.file_id log = Some "alice") (Activity.logs by_file).
Proof.
  apply (activity_queries_respect_name_and_limit "alice" 5 two_logins).
  - discriminate.
  - lia.
Defined.

Lemma log_access_denied_then_summary_witness :
  let before := SummaryAnswer.summary (get_security_summary None two_logins).1 in
  let after :=
    SummaryAnswer.summary
      (get_security_summary None
         (log_access_denied "bob" "f" "User bob not authorized" 
            "user_permission" "203.0.113.5" None two_logins).2).1 in
  Summary.access_denied after = Summary.access_denied before + 1 /\
  Summary.failed_events after = Summary.failed_events before + 1 /\
  Summary.total_events after = Summary.total_events before + 1 /\
  Summary.successful_events after = Summary.successful_events before /\
  Summary.uploads after = Summary.uploads before /\
  Summary.downloads after = Summary.downloads before /\
  Summary.login_attempts after = Summary.login_attempts before /\
  Summary.failed_logins after = Summary.failed_logins before.
Proof.
  apply (log_access_denied_then_summary "bob" "f" "User bob not authorized"
           "user_permission" "203.0.113.5" None None two_logins).
  - vm_compute. lia.
  - by left.
Defined.

Lemma region_gate_country_code_missing_witness :
  Gate.allowed
    (check_location_based_access "f" "203.0.113.5" no_country_world).1 =
  Py.contains "UNKNOWN" (Meta.allowed_regions alice_policy).
Proof.
  apply (region_gate_country_code_missing no_country_world "f" "203.0.113.5"
           alice_policy (<["status" := "success"]> ∅)); reflexivity.
Defined.

Lemma default_policy_admits_owner_in_office_hours_witness :
  Verdict.allowed
    (verify_access "alice" "f" "127.0.0.1"
       (save_file_metadata "f" "alice" "report.pdf"
          (Upload.mk None None None None) (offline_world noon)).2).1 = true <->
  micros (mk_time 9 0 0 0) <= micros (mk_time 12 0 0 0)
    <= micros (mk_time 18 0 0 0).
Proof.
  apply (default_policy_admits_owner_in_office_hours "f" "alice" "report.pdf"
           "127.0.0.1" (offline_world noon)).
  - reflexivity.
  - unfold valid_time. simpl. lia.
Defined.

Lemma allowed_file_last_extension_witness :
  allowed_file ("invoice.exe" +:+ "." +:+ "PDF") =
    Py.contains (lower "PDF") ALLOWED_EXTENSIONS /\
  get_file_extension ("invoice.exe" +:+ "." +:+ "PDF") = lower "PDF".
Proof.
  apply (allowed_file_last_extension "invoice.exe" "PDF"). reflexivity.
Defined.

Lemma get_client_ip_prefers_forwarded_header_witness :
  get_client_ip (Some ("10.1.2.3" +:+ "," +:+ " 70.1.1.1")) (Some "8.8.8.8")
    = "10.1.2.3" /\
  get_client_ip (Some "10.1.2.3") (Some "8.8.8.8") = "10.1.2.3" /\
  get_client_ip None (Some "10.1.2.3") = "10.1.2.3" /\
  get_client_ip None None = "127.0.0.1" /\
  get_client_ip (Some "") None = "127.0.0.1".
Proof.
  apply (get_client_ip_prefers_forwarded_header "10.1.2.3" " 70.1.1.1"
           (Some "8.8.8.8")).
  - discriminate.
  - reflexivity.
Defined.

Lemma forwarded_local_address_decides_region_witness :
  let ip_address :=
    get_client_ip (Some ("127.0.0.1" +:+ "," +:+ " 203.0.113.5"))
      (Some "203.0.113.5") in
  Gate.allowed (check_location_based_access "f" ip_address alice_world).1 =
    Py.contains "IN" (Meta.allowed_regions alice_policy) /\
  requests (check_location_based_access "f" ip_address alice_world).2 =
    requests alice_world.
Proof.
  apply (forwarded_local_address_decides_region alice_world "f" alice_policy
           "127.0.0.1" " 203.0.113.5" (Some "203.0.113.5")); reflexivity.
Defined.

Lemma create_user_keeps_names_and_emails_distinct_witness :
  let created := create_user "alice" "alice@example.com" "hash" fresh_site in
  Res.success created.1 =
    negb (bool_decide ("alice" ∈ map fst (users fresh_site))) &&
    negb (bool_decide
            ("alice@example.com" ∈
             map (fun entry => User.email entry.2) (users fresh_site))) /\
  (if Res.success created.1
   then users created.2 =
        (users fresh_site ++
         [("alice",
           User.mk "alice@example.com" "hash"
             (isoformat (clock (world fresh_site) (ticks (world fresh_site))))
             "user")])%list
   else created.2 = fresh_site) /\
  NoDup (map fst (users created.2)) /\
  NoDup (map (fun entry => User.email entry.2) (users created.2)).
Proof.
  apply (create_user_keeps_names_and_emails_distinct "alice"
           "alice@example.com" "hash" fresh_site);
    simpl; apply NoDup_nil_2.
Defined.

Lemma create_user_then_lookup_witness :
  let s' := (create_user "alice" "alice@example.com" "hash" fresh_site).2 in
  let stamp :=
    isoformat (clock (world fresh_site) (ticks (world fresh_site))) in
  (get_user "alice" s').1 =
    Some (User.mk "alice@example.com" "hash" stamp "user") /\
  (get_user_by_email "alice@example.com" s').1 =
    Some (NamedUser.mk "alice@example.com" "hash" stamp "user" "alice") /\
  (list_users s').1 =
    ((list_users fresh_site).1 ++
     [("alice", SafeUser.mk "alice@example.com" stamp "user")])%list.
Proof.
  apply (create_user_then_lookup "alice" "alice@example.com" "hash"
           fresh_site).
  - simpl. apply NoDup_nil_2.
  - reflexivity.
Defined.

Lemma register_user_rejects_invalid_input_witness :
  Res.success
    (register_user toy_hashpw "al" "al@example.com" "secret1" fresh_site).1
    = false /\
  (register_user toy_hashpw "al" "al@example.com" "secret1" fresh_site).2
    = fresh_site.
Proof.
  apply (register_user_rejects_invalid_input toy_hashpw "al" "al@example.com"
           "secret1" fresh_site).
  left. simpl. lia.
Defined.

Lemma register_user_success_stores_user_witness :
  (3 <= String.length "alice")%nat /\
  has_char "@" "alice@example.com" = true /\
  (6 <= String.length "secret1")%nat /\
  (get_user "alice" fresh_site).1 = None /\
  exists password_hash entry,
    toy_hashpw "secret1" (salts fresh_site (drawn fresh_site)) =
      inr password_hash /\
    (get_user "alice" registered_site).1 =
      Some (User.mk "alice@example.com" password_hash
              (isoformat (clock (world fresh_site) (ticks (world fresh_site))))
              "user") /\
    last (audit_logs (world registered_site)) = Some entry /\
    Log.event_type entry = "REGISTER" /\ Log.username entry = "alice" /\
    Log.success entry = true /\
    Log.details entry !! "email" = Some "alice@example.com".
Proof.
  apply (register_user_success_stores_user toy_hashpw "alice"
           "alice@example.com" "secret1" fresh_site).
  reflexivity.
Defined.

Lemma login_user_failures_look_alike_witness :
  let attempt :=
    login_user toy_checkpw toy_access_token toy_refresh_token "mallory"
      "guess" (Some "203.0.113.5") registered_site in
  attempt.1 = Login.mk false "Invalid username or password" None None None /\
  users attempt.2 = users registered_site /\
  exists entry,
    last (audit_logs (world attempt.2)) = Some entry /\
    Log.event_type entry = "LOGIN_FAILED" /\ Log.username entry = "mallory" /\
    Log.ip_address entry = Some "203.0.113.5" /\ Log.success entry = false.
Proof.
  apply (login_user_failures_look_alike toy_checkpw toy_access_token
           toy_refresh_token "mallory" "guess" (Some "203.0.113.5")
           registered_site).
  left. reflexivity.
Defined.

Lemma login_user_success_needs_verified_password_witness :
  exists user access refresh entry,
    (get_user "alice" registered_site).1 = Some user /\
    toy_checkpw "secret1" (User.password_hash user) = inr true /\
    toy_access_token "alice" (User.role user) = inr access /\
    toy_refresh_token "alice" = inr refresh /\
    (login_user toy_checkpw toy_access_token toy_refresh_token "alice"
       "secret1" None registered_site).1 =
      Login.mk true "Login successful" (Some access) (Some refresh)
        (Some (Login.mk_user "alice" (User.email user) (User.role user))) /\
    users (login_user toy_checkpw toy_access_token toy_refresh_token "alice"
             "secret1" None registered_site).2 = users registered_site /\
    last (audit_logs
            (world (login_user toy_checkpw toy_access_token toy_refresh_token
                      "alice" "secret1" None registered_site).2)) =
      Some entry /\
    Log.event_type entry = "LOGIN_SUCCESS" /\ Log.username entry = "alice" /\
    Log.success entry = true.
Proof.
  apply (login_user_success_needs_verified_password toy_checkpw
           toy_access_token toy_refresh_token "alice" "secret1" None
           registered_site).
  reflexivity.
Defined.

Lemma register_user_then_login_user_witness :
  (login_user toy_checkpw toy_access_token toy_refresh_token "alice"
     "secret1" None registered_site).1 =
    Login.mk true "Login successful" (Some "access:alice:user")
      (Some "refresh:alice")
      (Some (Login.mk_user "alice" "alice@example.com" "user")) /\
  (get_user_info "alice" registered_site).1 =
    Info.mk true None
      (Some (Info.mk_user "alice" "alice@example.com" "user"
               (isoformat
                  (clock (world fresh_site) (ticks (world fresh_site)))))).
Proof.
  apply (register_user_then_login_user toy_hashpw toy_checkpw
           toy_access_token toy_refresh_token "alice" "alice@example.com"
           "secret1" None "access:alice:user" "refresh:alice" fresh_site).
  - intros hashed [= <-]. reflexivity.
  - reflexivity.
  - reflexivity.
  - reflexivity.
Defined.

(** * Further examples *)

(** A second extension does not help, and case does not matter. *)
Example allowed_file_samples :
  allowed_file "report.pdf" = true /\
  allowed_file "REPORT.PDF" = true /\
  allowed_file "report.pdf.exe" = false /\
  allowed_file "report.exe.pdf" = true /\
  allowed_file "report" = false /\
  allowed_file "report." = false /\
  allowed_file ".pdf" = true.
Proof. by vm_compute. Qed.

(** The summary of a small log. *)
Example summary_of_two_logins_and_a_denial :
  SummaryAnswer.summary
    (get_security_summary None
       (log_access_denied "bob" "f" "User bob not authorized"
          "user_permission" "203.0.113.5" None two_logins).2).1 =
  Summary.mk 3 2 1 1 0 0 2 0 [("ACCESS_DENIED", 1); ("LOGIN_SUCCESS", 2)].
Proof. by vm_compute. Qed.

(** A second registration under the same name or email is refused. *)
Example duplicate_registration :
  (register_user toy_hashpw "alice" "other@example.com" "secret2"
     registered_site).1 = Res.mk false "Username already exists" /\
  (register_user toy_hashpw "alicia" "alice@example.com" "secret2"
     registered_site).1 = Res.mk false "Email already registered".
Proof. by vm_compute. Qed.
